(** * TJH-Support admin chat: the chat context and the chat panel

    A shallow embedding of the client-side chat engine of the admin
    dashboard:

    - [AdminChatProvider] (contexts/AdminChatContext.tsx, the variant with
      integer message ids and the retrying [loadMessages]): [loadMessages],
      [sendMessage], [createConversation], [deleteConversation] and the
      effect that reloads the messages when the selection changes;
    - [ChatPanel] (components/admin/ChatPanel.tsx): the typing animation
      effects, [handleFileSelect], [handleRemoveFile], [formatFileSize],
      [getFileTypeLabel] and [handleSubmit];
    - the admin layout, which hands the panel the selected conversation and
      the messages filtered by the selected conversation;
    - the dashboard page: [handleAddConversation] and
      [handleDeleteConversation].

    Asynchronous functions are written once, as terms of the type [Async] of
    programs over the effects the source performs (React state updates,
    [fetch], [setTimeout], [requestAnimationFrame], [console.error]).  Two
    interpreters run them: [exec] runs one call to completion against a
    scripted backend, and [Loop.step] runs several suspended calls under an
    arbitrary arrival order of their responses. *)

From Stdlib Require Import List ZArith NArith Bool String Ascii Lia.
From Stdlib Require DecimalString Sorted.
From stdpp Require Import base list gmap.
Import ListNotations.

#[local] Open Scope Z_scope.

(** ** JavaScript strings

    A JavaScript string is a sequence of UTF-16 code units. *)

Definition jsstring := list N.

Definition js (s : string) : jsstring :=
  List.map N_of_ascii (list_ascii_of_string s).

Definition jsstring_eqb (a b : jsstring) : bool :=
  bool_decide (a = b).

(** [!s] on a string: only the empty string is falsy. *)
Definition falsy (s : jsstring) : bool :=
  match s with [] => true | _ => false end.

(** ECMAScript [WhiteSpace] and [LineTerminator] code points, the ones
    [String.prototype.trim] strips. *)
Definition isWhiteSpace (c : N) : bool :=
  (existsb (N.eqb c)
     [9; 10; 11; 12; 13; 32; 160; 5760; 8232; 8233; 8239; 8287; 12288; 65279]
   || ((8192 <=? c) && (c <=? 8202)))%N.

Fixpoint trimStart (s : jsstring) : jsstring :=
  match s with
  | c :: s' => if isWhiteSpace c then trimStart s' else s
  | [] => []
  end.

Definition trimEnd (s : jsstring) : jsstring := rev (trimStart (rev s)).

Definition trim (s : jsstring) : jsstring := trimEnd (trimStart s).

(** [a || b] on strings. *)
Definition or_else (a b : jsstring) : jsstring :=
  if falsy a then b else a.

(** [s.endsWith(suffix)]. *)
Definition endsWith (s suffix : jsstring) : bool :=
  jsstring_eqb (skipn (length s - length suffix) s) suffix
  && (length suffix <=? length s)%nat.

(** [`${n}`] for a non-negative integer. *)
Definition decimal (n : nat) : jsstring :=
  js (DecimalString.NilZero.string_of_uint (Nat.to_uint n)).

(** ** Types of the chat context *)

Inductive Author := admin | agent.

#[global] Instance Author_eq_dec : EqDecision Author.
Proof. solve_decision. Defined.

Module Conversation.
Record t := mk {
  id : Z;
  customer_id : Z;
  title : jsstring;
  external_thread_id : jsstring;
  created_at : jsstring;
}.
End Conversation.

Module Message.
Record t := mk {
  id : Z;
  conversation_id : Z;
  author : Author;
  text : jsstring;
  created_at : jsstring;
}.
End Message.

Module File.
Record t := mk {
  name : jsstring;
  type : jsstring;
  size : Z;
}.
End File.

(** The [useState] cells of [AdminChatProvider]. *)
Record ChatState := mkChatState {
  showChatPanel : bool;
  customerId : option Z;
  conversations : list Conversation.t;
  selectedConversationId : option Z;
  messages : list Message.t;
  isSending : bool;
  isLoadingMessages : bool;
}.

(** The state setters; the ones the source calls with an updater function
    take the updater. *)
Definition setShowChatPanel (b : bool) (s : ChatState) : ChatState :=
  mkChatState b (customerId s) (conversations s) (selectedConversationId s)
    (messages s) (isSending s) (isLoadingMessages s).

Definition setConversations
    (f : list Conversation.t -> list Conversation.t) (s : ChatState) : ChatState :=
  mkChatState (showChatPanel s) (customerId s) (f (conversations s))
    (selectedConversationId s) (messages s) (isSending s) (isLoadingMessages s).

Definition setSelectedConversationId (v : option Z) (s : ChatState) : ChatState :=
  mkChatState (showChatPanel s) (customerId s) (conversations s) v
    (messages s) (isSending s) (isLoadingMessages s).

Definition setMessages
    (f : list Message.t -> list Message.t) (s : ChatState) : ChatState :=
  mkChatState (showChatPanel s) (customerId s) (conversations s)
    (selectedConversationId s) (f (messages s)) (isSending s) (isLoadingMessages s).

Definition setIsSending (b : bool) (s : ChatState) : ChatState :=
  mkChatState (showChatPanel s) (customerId s) (conversations s)
    (selectedConversationId s) (messages s) b (isLoadingMessages s).

Definition setIsLoadingMessages (b : bool) (s : ChatState) : ChatState :=
  mkChatState (showChatPanel s) (customerId s) (conversations s)
    (selectedConversationId s) (messages s) (isSending s) b.

(** ** The backend, as [fetch] sees it *)

(** What a rejected promise carries: [fetch] rejects on a network error,
    [res.json()] rejects on a body that does not parse. *)
Inductive Err := NetworkError | SyntaxError.

(** A [Response]; [body = None] is a body that [res.json()] cannot parse as
    the type the caller expects. *)
Record Response (T : Type) := mkResponse {
  ok : bool;
  status : Z;
  body : option T;
}.
Arguments mkResponse {T}.
Arguments ok {T}.
Arguments status {T}.
Arguments body {T}.

Inductive FetchResult (T : Type) :=
| Rejected
| Resolved (res : Response T).
Arguments Rejected {T}.
Arguments Resolved {T}.

(** The JSON of a successful send; [reply_messages = None] when the
    [messages] field is absent or not an array. *)
Record SendReply := mkSendReply {
  reply_messages : option (list Message.t);
}.

(** The requests of the provider (the cache-busting [?t=] query and the
    headers are left out). *)
Inductive Request :=
| GET_messages (conversationId : Z)
| POST_chat_json (conversationId : Z) (message : jsstring)
| POST_chat_form (conversationId : Z) (message : jsstring) (files : list File.t)
| POST_conversations (customer_id : Z) (title : jsstring)
| DELETE_conversation (conversationId : Z).

Inductive LogArg :=
| LStr (s : jsstring)
| LNum (n : Z)
| LErr (e : Err).

(** ** Asynchronous programs *)

Inductive Async (A : Type) : Type :=
| Ret (a : A)
| Throw (e : Err)
| SetState (f : ChatState -> ChatState) (k : Async A)
| ConsoleError (args : list LogArg) (k : Async A)
| Sleep (ms : Z) (k : Async A)
| RequestAnimationFrame (cb : ChatState -> ChatState) (k : Async A)
| FetchMessages (conversationId : Z)
    (k : FetchResult (list Message.t) -> Async A)
| FetchChat (conversationId : Z) (message : jsstring) (files : option (list File.t))
    (k : FetchResult SendReply -> Async A)
| FetchCreate (customer_id : Z) (title : jsstring)
    (k : FetchResult Conversation.t -> Async A)
| FetchDelete (conversationId : Z)
    (k : FetchResult unit -> Async A).
Arguments Ret {A}.
Arguments Throw {A}.
Arguments SetState {A}.
Arguments ConsoleError {A}.
Arguments Sleep {A}.
Arguments RequestAnimationFrame {A}.
Arguments FetchMessages {A}.
Arguments FetchChat {A}.
Arguments FetchCreate {A}.
Arguments FetchDelete {A}.

Fixpoint bind {A B} (m : Async A) (f : A -> Async B) : Async B :=
  match m with
  | Ret a => f a
  | Throw e => Throw e
  | SetState g k => SetState g (bind k f)
  | ConsoleError args k => ConsoleError args (bind k f)
  | Sleep ms k => Sleep ms (bind k f)
  | RequestAnimationFrame cb k => RequestAnimationFrame cb (bind k f)
  | FetchMessages c k => FetchMessages c (fun r => bind (k r) f)
  | FetchChat c msg fs k => FetchChat c msg fs (fun r => bind (k r) f)
  | FetchCreate c t k => FetchCreate c t (fun r => bind (k r) f)
  | FetchDelete c k => FetchDelete c (fun r => bind (k r) f)
  end.

#[global] Instance Async_ret : MRet Async := fun _ a => Ret a.
#[global] Instance Async_bind : MBind Async := fun _ _ f m => bind m f.

(** [try { m } catch (err) { h err }]. *)
Fixpoint try_catch {A} (m : Async A) (h : Err -> Async A) : Async A :=
  match m with
  | Ret a => Ret a
  | Throw e => h e
  | SetState g k => SetState g (try_catch k h)
  | ConsoleError args k => ConsoleError args (try_catch k h)
  | Sleep ms k => Sleep ms (try_catch k h)
  | RequestAnimationFrame cb k => RequestAnimationFrame cb (try_catch k h)
  | FetchMessages c k => FetchMessages c (fun r => try_catch (k r) h)
  | FetchChat c msg fs k => FetchChat c msg fs (fun r => try_catch (k r) h)
  | FetchCreate c t k => FetchCreate c t (fun r => try_catch (k r) h)
  | FetchDelete c k => FetchDelete c (fun r => try_catch (k r) h)
  end.

(** [try { m } finally { fin }]: [fin] runs however [m] completes, also
    when [m] leaves through [return] or [continue] (the callers encode
    those in the value [m] returns). *)
Definition finally {A} (m : Async A) (fin : Async unit) : Async A :=
  a ← try_catch m (fun e => fin;; Throw e); fin;; Ret a.

(** Single effects. *)
Definition set_state (f : ChatState -> ChatState) : Async unit :=
  SetState f (Ret tt).
Definition console_error (args : list LogArg) : Async unit :=
  ConsoleError args (Ret tt).
Definition sleep (ms : Z) : Async unit := Sleep ms (Ret tt).
Definition requestAnimationFrame (cb : ChatState -> ChatState) : Async unit :=
  RequestAnimationFrame cb (Ret tt).

(** [await fetch(...)]: a rejected promise throws at the [await]. *)
Definition awaited {T} (r : FetchResult T) : Async (Response T) :=
  match r with
  | Rejected => Throw NetworkError
  | Resolved res => Ret res
  end.

(** [await res.json()]. *)
Definition json {T} (res : Response T) : Async T :=
  match body res with
  | Some d => Ret d
  | None => Throw SyntaxError
  end.

(** ** The provider's functions *)

(** How one pass through the body of the [for] loop of [loadMessages]
    leaves it. *)
Inductive Exit := Continue | Return | FallThrough.

Section Provider.

(** [typeof window !== "undefined"]: true in the browser. *)
Variable window : bool.

(** Either through [requestAnimationFrame] or directly. *)
Definition smooth_update (f : ChatState -> ChatState) : Async unit :=
  if window then requestAnimationFrame f else set_state f.

(** The [try]/[catch]/[finally] statement inside the loop of
    [loadMessages], for one value of [attempt]. *)
Definition loadMessages_attempt
    (conversationId : Z) (retries : Z) (delay : Z) (attempt : Z) : Async Exit :=
  finally
    (try_catch
       (res ← FetchMessages conversationId awaited;
        if negb (ok res) then
          if attempt <? retries - 1 then
            sleep (delay * 2 ^ attempt);;
            Ret Continue
          else
            console_error [LStr (js "Failed to load messages"); LNum (status res)];;
            set_state (setMessages (fun _ => []));;
            Ret Return
        else
          data ← json res;
          smooth_update (setMessages (fun _ => data));;
          Ret Return)
       (fun err =>
          if attempt <? retries - 1 then
            sleep (delay * 2 ^ attempt);;
            Ret Continue
          else
            console_error [LStr (js "Error loading messages"); LErr err];;
            set_state (setMessages (fun _ => []));;
            Ret FallThrough))
    (set_state (setIsLoadingMessages false)).

(** [for (let attempt = ...; attempt < retries; attempt++)], with [todo]
    the number of values of [attempt] still to try. *)
Fixpoint loadMessages_loop
    (conversationId : Z) (retries : Z) (delay : Z) (todo : nat) (attempt : Z)
    : Async unit :=
  match todo with
  | O => Ret tt
  | S todo' =>
      exit ← loadMessages_attempt conversationId retries delay attempt;
      match exit with
      | Return => Ret tt
      | Continue | FallThrough =>
          loadMessages_loop conversationId retries delay todo' (attempt + 1)
      end
  end.

Definition loadMessages_with (conversationId : Z) (retries : nat) (delay : Z)
    : Async unit :=
  set_state (setIsLoadingMessages true);;
  loadMessages_loop conversationId (Z.of_nat retries) delay retries 0.

(** [loadMessages(conversationId)] with the default [retries = 3] and
    [delay = 300]. *)
Definition loadMessages (conversationId : Z) : Async unit :=
  loadMessages_with conversationId 3 300.

(** [!files || files.length === 0]. *)
Definition no_files (files : option (list File.t)) : bool :=
  match files with
  | None | Some [] => true
  | Some (_ :: _) => false
  end.

(** The predicate of the [filter] on the error paths of [sendMessage]:
    [m.id !== -1 || m.text !== text.trim()]. *)
Definition not_placeholder (text : jsstring) (m : Message.t) : bool :=
  negb (Message.id m =? -1) || negb (jsstring_eqb (Message.text m) (trim text)).

(** The predicate on its success path:
    [!(m.id === -1 && m.text === text.trim())]. *)
Definition not_placeholder' (text : jsstring) (m : Message.t) : bool :=
  negb ((Message.id m =? -1) && jsstring_eqb (Message.text m) (trim text)).

Definition tempAdminMessage
    (now : jsstring) (conversationId : Z) (text : jsstring) : Message.t :=
  {| Message.id := -1;
     Message.conversation_id := conversationId;
     Message.author := admin;
     Message.text := or_else (trim text) (js "[Files attached]");
     Message.created_at := now |}.

(** [sendMessage(conversationId, text, files)]; [now] is
    [new Date().toISOString()] at the call. *)
Definition sendMessage
    (now : jsstring) (conversationId : Z) (text : jsstring)
    (files : option (list File.t)) : Async unit :=
  if falsy (trim text) && no_files files then Ret tt
  else
    set_state (setMessages (fun prev => prev ++ [tempAdminMessage now conversationId text]));;
    set_state (setIsSending true);;
    finally
      (try_catch
         (res ← (if no_files files
                  then FetchChat conversationId text None awaited
                  else FetchChat conversationId (or_else (trim text) []) files awaited);
          if negb (ok res) then
            set_state (setMessages (List.filter (not_placeholder text)));;
            console_error [LStr (js "Failed to send chat message"); LNum (status res)]
          else
            data ← json res;
            match reply_messages data with
            | Some (m :: ms) =>
                smooth_update
                  (setMessages (fun prev =>
                     List.filter (not_placeholder' text) prev ++ (m :: ms)))
            | Some [] | None =>
                sleep 100;;
                loadMessages conversationId
            end)
         (fun err =>
            set_state (setMessages (List.filter (not_placeholder' text)));;
            console_error [LStr (js "Error talking to chat backend"); LErr err]))
      (set_state (setIsSending false)).

(** [!customerId]: [null] and [0] are falsy. *)
Definition usable_customer (c : option Z) : option Z :=
  match c with
  | Some 0 | None => None
  | Some c => Some c
  end.

(** [title?.trim() || `Conversation ${conversations.length + 1}`]. *)
Definition trimmedTitle (rendered : ChatState) (title : option jsstring) : jsstring :=
  or_else (match title with Some t => trim t | None => [] end)
          (js "Conversation " ++ decimal (length (conversations rendered) + 1)).

(** [createConversation(title)].  The function reads [customerId] and
    [conversations] from the render that created it: [rendered]. *)
Definition createConversation (rendered : ChatState) (title : option jsstring)
    : Async (option Conversation.t) :=
  match usable_customer (customerId rendered) with
  | None =>
      console_error [LStr (js "Cannot create conversation without a customer")];;
      Ret None
  | Some customer =>
      try_catch
        (res ← FetchCreate customer (trimmedTitle rendered title) awaited;
         if negb (ok res) then
           console_error [LStr (js "Failed to create conversation"); LNum (status res)];;
           Ret None
         else
           newConversation ← json res;
           set_state (setConversations (fun prev => newConversation :: prev));;
           set_state (setSelectedConversationId (Some (Conversation.id newConversation)));;
           set_state (setShowChatPanel true);;
           loadMessages (Conversation.id newConversation);;
           Ret (Some newConversation))
        (fun err =>
           console_error [LStr (js "Error creating conversation"); LErr err];;
           Ret None)
  end.

(** [selectedConversationId === conversationId]. *)
Definition is_selected (sel : option Z) (conversationId : Z) : bool :=
  match sel with
  | Some s => s =? conversationId
  | None => false
  end.

(** The updater handed to [setConversations] by [deleteConversation],
    with the setters it calls on its way. *)
Definition delete_updater (rendered : ChatState) (conversationId : Z)
    (s : ChatState) : ChatState :=
  let updated :=
    List.filter (fun c => negb (Conversation.id c =? conversationId))
                (conversations s) in
  let s' :=
    if is_selected (selectedConversationId rendered) conversationId then
      match updated with
      | c :: _ => setSelectedConversationId (Some (Conversation.id c)) s
      | [] => setShowChatPanel false (setSelectedConversationId None s)
      end
    else s in
  setConversations (fun _ => updated) s'.

(** [deleteConversation(conversationId)]; it reads
    [selectedConversationId] from the render that created it. *)
Definition deleteConversation (rendered : ChatState) (conversationId : Z)
    : Async unit :=
  try_catch
    (res ← FetchDelete conversationId awaited;
     if negb (ok res) then
       console_error [LStr (js "Failed to delete conversation"); LNum (status res)]
     else
       set_state (delete_updater rendered conversationId);;
       if is_selected (selectedConversationId rendered) conversationId
       then set_state (setMessages (fun _ => []))
       else Ret tt)
    (fun err =>
       console_error [LStr (js "Error deleting conversation"); LErr err]).

(** The effect with dependency [selectedConversationId]:
    [loadMessages(selectedConversationId).catch(console.error)] or
    [setMessages([])]. *)
Definition selectionEffect (selected : option Z) : Async unit :=
  match selected with
  | Some conversationId =>
      try_catch (loadMessages conversationId)
                (fun err => console_error [LErr err])
  | None => set_state (setMessages (fun _ => []))
  end.

End Provider.

(** ** Running one call to completion *)

(** The backend as a script: the answer to a request may depend on how many
    requests were made before it. *)
Record Net := mkNet {
  on_messages : nat -> Z -> FetchResult (list Message.t);
  on_chat : nat -> Z -> jsstring -> option (list File.t) -> FetchResult SendReply;
  on_create : nat -> Z -> jsstring -> FetchResult Conversation.t;
  on_delete : nat -> Z -> FetchResult unit;
}.

(** The provider's state with what the call did to the outside: the console,
    the timers it waited for, the frame callbacks not yet run and the
    requests it made. *)
Record World := mkWorld {
  ui : ChatState;
  console : list (list LogArg);
  sleeps : list Z;
  frames : list (ChatState -> ChatState);
  requests : list Request;
}.

Definition with_ui (f : ChatState -> ChatState) (w : World) : World :=
  mkWorld (f (ui w)) (console w) (sleeps w) (frames w) (requests w).
Definition logged (args : list LogArg) (w : World) : World :=
  mkWorld (ui w) (console w ++ [args]) (sleeps w) (frames w) (requests w).
Definition slept (ms : Z) (w : World) : World :=
  mkWorld (ui w) (console w) (sleeps w ++ [ms]) (frames w) (requests w).
Definition framed (cb : ChatState -> ChatState) (w : World) : World :=
  mkWorld (ui w) (console w) (sleeps w) (frames w ++ [cb]) (requests w).
Definition requested (r : Request) (w : World) : World :=
  mkWorld (ui w) (console w) (sleeps w) (frames w) (requests w ++ [r]).

Definition chat_request (c : Z) (msg : jsstring) (fs : option (list File.t)) : Request :=
  match fs with
  | Some fs => POST_chat_form c msg fs
  | None => POST_chat_json c msg
  end.

Inductive Completion (A : Type) :=
| Returned (a : A)
| Threw (e : Err).
Arguments Returned {A}.
Arguments Threw {A}.

Fixpoint exec {A} (net : Net) (p : Async A) (w : World) : Completion A * World :=
  match p with
  | Ret a => (Returned a, w)
  | Throw e => (Threw e, w)
  | SetState f k => exec net k (with_ui f w)
  | ConsoleError args k => exec net k (logged args w)
  | Sleep ms k => exec net k (slept ms w)
  | RequestAnimationFrame cb k => exec net k (framed cb w)
  | FetchMessages c k =>
      exec net (k (on_messages net (length (requests w)) c))
           (requested (GET_messages c) w)
  | FetchChat c msg fs k =>
      exec net (k (on_chat net (length (requests w)) c msg fs))
           (requested (chat_request c msg fs) w)
  | FetchCreate c t k =>
      exec net (k (on_create net (length (requests w)) c t))
           (requested (POST_conversations c t) w)
  | FetchDelete c k =>
      exec net (k (on_delete net (length (requests w)) c))
           (requested (DELETE_conversation c) w)
  end.

(** The next animation frame: the pending callbacks run in the order they
    were requested. *)
Definition next_frame (w : World) : World :=
  mkWorld (fold_left (fun s cb => cb s) (frames w) (ui w))
          (console w) (sleeps w) [] (requests w).

(** A call followed by the frame that runs what it scheduled.  No function
    of the provider awaits anything after it has requested a frame. *)
Definition run {A} (net : Net) (p : Async A) (w : World) : Completion A * World :=
  let '(c, w') := exec net p w in (c, next_frame w').

(** ** The admin layout *)

(** What the layout hands to [ChatPanel] as [messages]:
    [messages.filter((m) => m.conversation_id === selectedConversationId)]. *)
Definition visible_messages (s : ChatState) : list Message.t :=
  List.filter
    (fun m => is_selected (selectedConversationId s) (Message.conversation_id m))
    (messages s).

(** ** Several calls in flight

    Between two [await]s a call runs alone; at a [fetch] or a timer it is
    suspended until the event loop hands it its answer.  The order in which
    the answers arrive is the environment's choice. *)

Module Loop.

Record t := mk {
  ui : ChatState;
  suspended : list (Async unit);
  frames : list (ChatState -> ChatState);
  console : list (list LogArg);
  unhandled : list Err;
}.

(** Runs a call up to its next [await] of the outside (or to its end). *)
Fixpoint advance (p : Async unit) (l : t) : t :=
  match p with
  | Ret _ => l
  | Throw e => mk (ui l) (suspended l) (frames l) (console l) (unhandled l ++ [e])
  | SetState f k => advance k (mk (f (ui l)) (suspended l) (frames l) (console l) (unhandled l))
  | ConsoleError args k =>
      advance k (mk (ui l) (suspended l) (frames l) (console l ++ [args]) (unhandled l))
  | RequestAnimationFrame cb k =>
      advance k (mk (ui l) (suspended l) (frames l ++ [cb]) (console l) (unhandled l))
  | Sleep _ _ | FetchMessages _ _ | FetchChat _ _ _ _ | FetchCreate _ _ _ | FetchDelete _ _ =>
      mk (ui l) (suspended l ++ [p]) (frames l) (console l) (unhandled l)
  end.

(** What the event loop delivers to a suspended call. *)
Inductive Answer :=
| Messages (r : FetchResult (list Message.t))
| Chat (r : FetchResult SendReply)
| Created (r : FetchResult Conversation.t)
| Deleted (r : FetchResult unit)
| TimerFired.

Definition resume (p : Async unit) (a : Answer) : option (Async unit) :=
  match p, a with
  | FetchMessages _ k, Messages r => Some (k r)
  | FetchChat _ _ _ k, Chat r => Some (k r)
  | FetchCreate _ _ k, Created r => Some (k r)
  | FetchDelete _ k, Deleted r => Some (k r)
  | Sleep _ k, TimerFired => Some k
  | _, _ => None
  end.

Inductive Event :=
(** The user picks a conversation: [setSelectedConversationId(v)]; when
    the value changes, the render is followed by the selection effect. *)
| Select (v : option Z)
(** An event handler starts a call. *)
| Call (p : Async unit)
(** The [i]-th suspended call receives its answer. *)
| Arrive (i : nat) (a : Answer)
(** An animation frame. *)
| Frame.

Definition step (window : bool) (e : Event) (l : t) : t :=
  match e with
  | Select v =>
      if bool_decide (selectedConversationId (ui l) = v) then l
      else
        advance (selectionEffect window v)
          (mk (setSelectedConversationId v (ui l)) (suspended l) (frames l)
              (console l) (unhandled l))
  | Call p => advance p l
  | Arrive i a =>
      match suspended l !! i with
      | Some p =>
          match resume p a with
          | Some p' =>
              advance p' (mk (ui l) (delete i (suspended l)) (frames l)
                             (console l) (unhandled l))
          | None => l
          end
      | None => l
      end
  | Frame =>
      mk (fold_left (fun s cb => cb s) (frames l) (ui l)) (suspended l) []
         (console l) (unhandled l)
  end.

Definition steps (window : bool) (es : list Event) (l : t) : t :=
  fold_left (fun l e => step window e l) es l.

(** Nothing in flight. *)
Definition idle (s : ChatState) : t := mk s [] [] [] [].

(** The arrivals a call sees when it runs alone against the scripted
    backend [net], started in world [w]: each of its fetches and timers is
    answered before anything else happens. *)
Fixpoint alone {A} (net : Net) (p : Async A) (w : World) : list Event :=
  match p with
  | Ret _ | Throw _ => []
  | SetState f k => alone net k (with_ui f w)
  | ConsoleError args k => alone net k (logged args w)
  | RequestAnimationFrame cb k => alone net k (framed cb w)
  | Sleep ms k => Arrive 0 TimerFired :: alone net k (slept ms w)
  | FetchMessages c k =>
      let r := on_messages net (length (requests w)) c in
      Arrive 0 (Messages r) :: alone net (k r) (requested (GET_messages c) w)
  | FetchChat c msg fs k =>
      let r := on_chat net (length (requests w)) c msg fs in
      Arrive 0 (Chat r) :: alone net (k r) (requested (chat_request c msg fs) w)
  | FetchCreate c t k =>
      let r := on_create net (length (requests w)) c t in
      Arrive 0 (Created r) :: alone net (k r) (requested (POST_conversations c t) w)
  | FetchDelete c k =>
      let r := on_delete net (length (requests w)) c in
      Arrive 0 (Deleted r) :: alone net (k r) (requested (DELETE_conversation c) w)
  end.

End Loop.

(** ** The chat panel *)

Section Sorting.
Context {A : Type}.

(** [Array.prototype.sort(cmp)] is stable: [x] goes before the first
    element it does not compare greater than. *)
Fixpoint insert_by (cmp : A -> A -> Z) (x : A) (l : list A) : list A :=
  match l with
  | [] => [x]
  | y :: l' => if cmp x y <=? 0 then x :: l else y :: insert_by cmp x l'
  end.

Fixpoint sort_by (cmp : A -> A -> Z) (l : list A) : list A :=
  match l with
  | [] => []
  | x :: l' => insert_by cmp x (sort_by cmp l')
  end.
End Sorting.

(** [s.indexOf(c)] for a single code unit, [None] for [-1]. *)
Fixpoint indexOf (s : jsstring) (c : N) : option nat :=
  match s with
  | [] => None
  | d :: s' => if (d =? c)%N then Some O else S <$> indexOf s' c
  end.

Module ChatPanel.

Record Typing := mkTyping {
  id : Z;
  fullText : jsstring;
  displayedText : jsstring;
}.

(** A pending [setTimeout]; every callback of the panel is a
    [setTypingMessage(v)]. *)
Record Timer := mkTimer {
  handle : positive;
  delay : Z;
  callback : option Typing;
}.

Record t := mk {
  (** props, as of the last render *)
  messages : list Message.t;
  isSending : bool;
  (** state and refs *)
  typingMessage : option Typing;
  typingTimeoutRef : option positive;
  lastAgentMessageIdRef : option Z;
  prevIsSendingRef : bool;
  processedMessageIdsRef : gset Z;
  (** the browser's timers *)
  timers : list Timer;
  next_handle : positive;
}.

Definition clearTimeout (h : positive) (p : t) : t :=
  mk (messages p) (isSending p) (typingMessage p) (typingTimeoutRef p)
     (lastAgentMessageIdRef p) (prevIsSendingRef p) (processedMessageIdsRef p)
     (List.filter (fun tm => negb (Pos.eqb (handle tm) h)) (timers p))
     (next_handle p).

(** [typingTimeoutRef.current = setTimeout(() => setTypingMessage(v), d)]. *)
Definition setTimeout_ref (v : option Typing) (d : Z) (p : t) : t :=
  mk (messages p) (isSending p) (typingMessage p) (Some (next_handle p))
     (lastAgentMessageIdRef p) (prevIsSendingRef p) (processedMessageIdsRef p)
     (timers p ++ [mkTimer (next_handle p) d v])
     (Pos.succ (next_handle p)).

(** The cleanup both effects return:
    [if (typingTimeoutRef.current) clearTimeout(typingTimeoutRef.current)]. *)
Definition cleanup (p : t) : t :=
  match typingTimeoutRef p with
  | Some h => clearTimeout h p
  | None => p
  end.

(** [messages.filter((m) => m.author === "agent").sort((a, b) => b.id - a.id)[0]]. *)
Definition lastAgentMessage (ms : list Message.t) : option Message.t :=
  head (sort_by (fun a b => Message.id b - Message.id a)
          (List.filter (fun m => bool_decide (Message.author m = agent)) ms)).

(** The body of the effect with dependencies
    [messages, isSending, typingMessage]; [rendered] is the
    [typingMessage] of the render being committed. *)
Definition startTyping (rendered : option Typing) (p : t) : t :=
  let sendingCompleted := prevIsSendingRef p && negb (isSending p) in
  let p' :=
    if sendingCompleted || negb (isSending p) then
      match lastAgentMessage (messages p), rendered with
      | Some last, None =>
          if bool_decide (Message.id last ∈ processedMessageIdsRef p) then p
          else
            mk (messages p) (isSending p)
               (Some (mkTyping (Message.id last) (Message.text last) []))
               (typingTimeoutRef p)
               (Some (Message.id last)) (prevIsSendingRef p)
               ({[Message.id last]} ∪ processedMessageIdsRef p)
               (timers p) (next_handle p)
      | _, _ => p
      end
    else p in
  mk (messages p') (isSending p') (typingMessage p') (typingTimeoutRef p')
     (lastAgentMessageIdRef p') (isSending p') (processedMessageIdsRef p')
     (timers p') (next_handle p').

(** [/[.,!?;:]/.test(c)]. *)
Definition isPunctuation (c : option N) : bool :=
  match c with
  | Some c => existsb (N.eqb c) (js ".,!?;:")
  | None => false
  end.

(** [index !== -1 && index < bound]. *)
Definition within (index : option nat) (bound : nat) : bool :=
  match index with
  | Some i => (i <? bound)%nat
  | None => false
  end.

Definition charsToAdd (remainingText : jsstring) : nat :=
  let nextSpaceIndex := indexOf remainingText 32 in
  let nextNewlineIndex := indexOf remainingText 10 in
  if within nextSpaceIndex 5 then (default O nextSpaceIndex + 1)%nat
  else if within nextNewlineIndex 3 then (default O nextNewlineIndex + 1)%nat
  else 1%nat.

(** The body of the effect with dependency [typingMessage]. *)
Definition animate (rendered : option Typing) (p : t) : t :=
  match rendered with
  | None => p
  | Some tm =>
      let currentLength := length (displayedText tm) in
      if (currentLength <? length (fullText tm))%nat then
        let remainingText := skipn currentLength (fullText tm) in
        let d := if isPunctuation (head remainingText) then 80 else 25 in
        setTimeout_ref
          (Some (mkTyping (id tm) (fullText tm)
                   (firstn (currentLength + charsToAdd remainingText) (fullText tm))))
          d p
      else setTimeout_ref None 200 p
  end.

(** The commit of a render in which [typingMessage] has changed: the
    cleanups of both effects, then both bodies. *)
Definition commit_both (p : t) : t :=
  let rendered := typingMessage p in
  animate rendered (startTyping rendered (cleanup (cleanup p))).

(** The panel after the renders that follow a change of [typingMessage]:
    when the first effect starts an animation, that is a second change. *)
Definition typing_changed (p : t) : t :=
  let p1 := commit_both p in
  match typingMessage p, typingMessage p1 with
  | None, Some _ => commit_both p1
  | _, _ => p1
  end.

Definition with_props (ms : list Message.t) (sending : bool) (p : t) : t :=
  mk ms sending (typingMessage p) (typingTimeoutRef p)
     (lastAgentMessageIdRef p) (prevIsSendingRef p) (processedMessageIdsRef p)
     (timers p) (next_handle p).

Definition setTypingMessage (v : option Typing) (p : t) : t :=
  mk (messages p) (isSending p) v (typingTimeoutRef p)
     (lastAgentMessageIdRef p) (prevIsSendingRef p) (processedMessageIdsRef p)
     (timers p) (next_handle p).

Inductive Event :=
(** The layout renders the panel with a new [messages] array (the layout
    builds one per render) and the current [isSending]. *)
| Props (ms : list Message.t) (sending : bool)
(** The timer with this handle fires. *)
| Fired (h : positive).

Definition step (e : Event) (p : t) : t :=
  match e with
  | Props ms sending =>
      (* only the first effect has a changed dependency *)
      let p1 := startTyping (typingMessage p) (cleanup (with_props ms sending p)) in
      match typingMessage p, typingMessage p1 with
      | None, Some _ => typing_changed p1
      | _, _ => p1
      end
  | Fired h =>
      match List.find (fun tm => Pos.eqb (handle tm) h) (timers p) with
      | Some tm =>
          typing_changed (setTypingMessage (callback tm) (clearTimeout h p))
      | None => p
      end
  end.

(** What the panel shows for a message. *)
Definition displayText (p : t) (m : Message.t) : jsstring :=
  match typingMessage p with
  | Some tm => if id tm =? Message.id m then displayedText tm else Message.text m
  | None => Message.text m
  end.

(** The panel as mounted, before any message. *)
Definition mounted : t := mk [] false None None None false ∅ [] 1%positive.

(** The text shown for the message being typed is a prefix of its full
    text. *)
Definition reveals_prefix (o : option Typing) : Prop :=
  match o with
  | Some tm => exists n, displayedText tm = firstn n (fullText tm)
  | None => True
  end.

(** That holds of the animation and of what every pending timer will set. *)
Definition well_formed (p : t) : Prop :=
  reveals_prefix (typingMessage p)
  /\ Forall (fun tm => reveals_prefix (callback tm)) (timers p).

(** *** File selection *)

Record UploadedFile := mkUploadedFile {
  uid : jsstring;
  file : File.t;
  preview : option jsstring;
}.

Definition SUPPORTED_FILE_TYPES : list jsstring :=
  [ js "application/pdf";
    js "application/vnd.openxmlformats-officedocument.wordprocessingml.document";
    js "application/msword";
    js "text/plain";
    js "text/markdown";
    js "image/jpeg";
    js "image/png";
    js "image/gif";
    js "image/webp" ].

Definition MAX_FILE_SIZE : Z := 10 * 1024 * 1024.

Definition isValidType (f : File.t) : bool :=
  existsb (jsstring_eqb (File.type f)) SUPPORTED_FILE_TYPES
  || endsWith (File.name f) (js ".docx")
  || endsWith (File.name f) (js ".doc")
  || endsWith (File.name f) (js ".txt")
  || endsWith (File.name f) (js ".md").

(** The two checks of the [forEach] callback: the error it pushes, or
    [None] when the file passes. *)
Definition rejection (f : File.t) : option jsstring :=
  if negb (isValidType f) then
    Some (File.name f ++
          js ": Unsupported file type. Supported: PDF, DOCX, DOC, TXT, MD, or images (JPEG, PNG, GIF, WEBP)")
  else if File.size f >? MAX_FILE_SIZE then
    Some (File.name f ++ js ": File too large. Maximum size is 10MB.")
  else None.

(** [errors.join("\n")]. *)
Fixpoint join (sep : jsstring) (l : list jsstring) : jsstring :=
  match l with
  | [] => []
  | [s] => s
  | s :: l' => s ++ sep ++ join sep l'
  end.

Record Selection := mkSelection {
  uploadedFiles : list UploadedFile;
  errors : list jsstring;
  alert : option jsstring;
}.

Section FileSelect.
(** [`${Date.now()}-${Math.random()}`] for the file at a position of the
    selection. *)
Variable fileId : nat -> jsstring.

(** The [forEach] over the selected files, from position [i] on, with
    the accumulators [newFiles] and [errors]. *)
Fixpoint forEach_file (i : nat) (files : list File.t)
    (newFiles : list UploadedFile) (errs : list jsstring)
    : list UploadedFile * list jsstring :=
  match files with
  | [] => (newFiles, errs)
  | f :: files' =>
      match rejection f with
      | Some e => forEach_file (S i) files' newFiles (errs ++ [e])
      | None =>
          forEach_file (S i) files'
            (newFiles ++ [mkUploadedFile (fileId i) f None]) errs
      end
  end.

(** [handleFileSelect(e)] with [files = e.target.files] and [prev] the
    current [uploadedFiles]. *)
Definition handleFileSelect (files : option (list File.t))
    (prev : list UploadedFile) : Selection :=
  match files with
  | None | Some [] => mkSelection prev [] None
  | Some fs =>
      let '(newFiles, errs) := forEach_file 0 fs [] [] in
      mkSelection
        (match newFiles with [] => prev | _ => prev ++ newFiles end)
        errs
        (match errs with [] => None | _ => Some (join [10%N] errs) end)
  end.
End FileSelect.

(** *** The upload list and the composer

    The [console.log] calls of these handlers write to the debug log only
    and are left out; [console.error] is the one log the model keeps. *)

(** [handleRemoveFile(fileId)], on the current [uploadedFiles]. *)
Definition handleRemoveFile (fileId : jsstring) (prev : list UploadedFile)
    : list UploadedFile :=
  List.filter (fun f => negb (jsstring_eqb (uid f) fileId)) prev.

(** [(num / den).toFixed(1)] for a non-negative integer [num] and [den] a
    power of two: the quotient is then exact as a double, and [toFixed(1)]
    takes the integer [n] with [n / 10] nearest to it, the larger of two. *)
Definition toFixed1 (num den : Z) : jsstring :=
  let n := (20 * num + den) / (2 * den) in
  decimal (Z.to_nat (n / 10)) ++ js "." ++ decimal (Z.to_nat (n mod 10)).

(** [formatFileSize(bytes)]. *)
Definition formatFileSize (bytes : Z) : jsstring :=
  if bytes <? 1024 then decimal (Z.to_nat bytes) ++ js " B"
  else if bytes <? 1024 * 1024 then toFixed1 bytes 1024 ++ js " KB"
  else toFixed1 bytes (1024 * 1024) ++ js " MB".

(** [s.startsWith(prefix)]. *)
Definition startsWith (s pre : jsstring) : bool :=
  jsstring_eqb (firstn (length pre) s) pre.

(** [getFileTypeLabel(file)]. *)
Definition getFileTypeLabel (f : File.t) : jsstring :=
  if jsstring_eqb (File.type f) (js "application/pdf") then js "PDF"
  else if jsstring_eqb (File.type f)
            (js "application/vnd.openxmlformats-officedocument.wordprocessingml.document")
          || endsWith (File.name f) (js ".docx") then js "DOCX"
  else if jsstring_eqb (File.type f) (js "application/msword")
          || endsWith (File.name f) (js ".doc") then js "DOC"
  else if jsstring_eqb (File.type f) (js "text/plain")
          || endsWith (File.name f) (js ".txt") then js "TXT"
  else if jsstring_eqb (File.type f) (js "text/markdown")
          || endsWith (File.name f) (js ".md") then js "MD"
  else if startsWith (File.type f) (js "image/") then js "IMAGE"
  else js "FILE".

(** The [input] and [uploadedFiles] state of the panel. *)
Record Composer := mkComposer {
  input : jsstring;
  uploaded : list UploadedFile;
}.

(** The lines [[File: name (size)]] of [handleSubmit], joined by newlines. *)
Definition fileList (ups : list UploadedFile) : jsstring :=
  join [10%N]
    (List.map
       (fun f => js "[File: " ++ File.name (file f) ++ js " ("
                 ++ formatFileSize (File.size (file f)) ++ js ")]")
       ups).

(** The [messageText] that [handleSubmit] builds from the trimmed input
    [text] and the upload list. *)
Definition messageText (text : jsstring) (ups : list UploadedFile) : jsstring :=
  match ups with
  | [] => text
  | _ :: _ =>
      if falsy text
      then js "Uploaded " ++ decimal (length ups) ++ js " file(s):" ++ [10%N]
           ++ fileList ups
      else text ++ [10%N; 10%N] ++ fileList ups
  end.

(** [handleSubmit()]: the composer it leaves and the call it makes.  The
    files are named in the text; [sendMessage] gets no [files] argument. *)
Definition handleSubmit (window : bool) (now : jsstring)
    (conversation : option Conversation.t) (form : Composer)
    : Composer * Async unit :=
  let text := trim (input form) in
  match conversation with
  | None => (form, Ret tt)
  | Some conv =>
      if falsy text && match uploaded form with [] => true | _ => false end
      then (form, Ret tt)
      else (mkComposer [] [],
            sendMessage window now (Conversation.id conv)
              (messageText text (uploaded form)) None)
  end.

(** *** Runs of the panel *)

Definition steps (es : list Event) (p : t) : t :=
  fold_left (fun p e => step e p) es p.

(** The timer the panel holds fires. *)
Definition tick (p : t) : t :=
  match typingTimeoutRef p with
  | Some h => step (Fired h) p
  | None => p
  end.

(** The delay and the value of the timer that [animate] sets for [tm]. *)
Definition scheduled (tm : Typing) : Z * option Typing :=
  let currentLength := length (displayedText tm) in
  if (currentLength <? length (fullText tm))%nat then
    let remainingText := skipn currentLength (fullText tm) in
    (if isPunctuation (head remainingText) then 80 else 25,
     Some (mkTyping (id tm) (fullText tm)
             (firstn (currentLength + charsToAdd remainingText) (fullText tm))))
  else (200, None).

(** The animation of [tm] is under way and undisturbed: the one pending
    timer is the one [animate] has set for [tm], held by
    [typingTimeoutRef]. *)
Definition animating (p : t) (tm : Typing) : Prop :=
  typingMessage p = Some tm
  /\ exists h,
       typingTimeoutRef p = Some h
       /\ timers p = [mkTimer h (fst (scheduled tm)) (snd (scheduled tm))].

(** At most one timer is pending, the one [typingTimeoutRef] holds. *)
Definition tidy (p : t) : Prop :=
  timers p = []
  \/ exists tmr, timers p = [tmr] /\ typingTimeoutRef p = Some (handle tmr).

(** The panel is through with message [i]: it has been processed, and
    neither the animation nor a pending timer is about it. *)
Definition done_with (i : Z) (p : t) : Prop :=
  i ∈ processedMessageIdsRef p
  /\ (forall tm, typingMessage p = Some tm -> id tm <> i)
  /\ Forall (fun tmr => forall tm, callback tmr = Some tm -> id tm <> i) (timers p).


End ChatPanel.

(** ** The dashboard page *)

Module Dashboard.

(** [handleAddConversation()]; [answer] is what [window.prompt] returns,
    [None] when the user cancels.  The page reads [conversations] from the
    same render as the provider's functions. *)
Definition handleAddConversation (window : bool) (rendered : ChatState)
    (answer : option jsstring) : Async unit :=
  let defaultTitle :=
    js "Conversation " ++ decimal (length (conversations rendered) + 1) in
  match answer with
  | None => Ret tt
  | Some input =>
      let sanitized := trim input in
      createConversation window rendered (Some (or_else sanitized defaultTitle));;
      Ret tt
  end.

(** [handleDeleteConversation(conv)]; [confirmed] is what [window.confirm]
    returns. *)
Definition handleDeleteConversation (rendered : ChatState) (confirmed : bool)
    (conv : Conversation.t) : Async unit :=
  if negb confirmed then Ret tt
  else deleteConversation rendered (Conversation.id conv).

End Dashboard.

(** The [conversation] the layout hands to the panel:
    [conversations.find((c) => c.id === selectedConversationId) ?? null]. *)
Definition panel_conversation (s : ChatState) : option Conversation.t :=
  List.find (fun c => is_selected (selectedConversationId s) (Conversation.id c))
            (conversations s).

(** ** Vocabulary of the statements *)

(** A fetch that fails: the promise rejects or the status is not 2xx. *)
Definition failed {T} (r : FetchResult T) : bool :=
  match r with
  | Rejected => true
  | Resolved res => negb (ok res)
  end.

(** The JSON of an answer that is [ok] and parses. *)
Definition payload {T} (r : FetchResult T) : option T :=
  match r with
  | Resolved res => if ok res then body res else None
  | Rejected => None
  end.

(** The answer to the POST of a [sendMessage] started in world [w]. *)
Definition chat_answer (net : Net) (w : World) (c : Z) (text : jsstring)
    (files : option (list File.t)) : FetchResult SendReply :=
  if no_files files then on_chat net (length (requests w)) c text None
  else on_chat net (length (requests w)) c (or_else (trim text) []) files.

(** The ids of a message list, as a set. *)
Definition id_set (ms : list Message.t) : gset Z :=
  list_to_set (List.map Message.id ms).

(** A pending placeholder for a send of [text]. *)
Definition is_placeholder (text : jsstring) (m : Message.t) : Prop :=
  Message.id m = -1 /\ Message.text m = trim text.

(** The selection is none or one of the listed conversations. *)
Definition selection_in_list (s : ChatState) : Prop :=
  match selectedConversationId s with
  | Some sel => In sel (List.map Conversation.id (conversations s))
  | None => True
  end.

(** Every message of the list belongs to the conversation. *)
Definition all_of (conversationId : Z) (ms : list Message.t) : Prop :=
  Forall (fun m => Message.conversation_id m = conversationId) ms.

(** A string of white space only: what [trim] empties. *)
Definition blank (s : jsstring) : Prop := Forall (fun ch => isWhiteSpace ch = true) s.

(** A decimal digit. *)
Definition digit (ch : N) : Prop := (48 <= ch <= 57)%N.

(** Two states that differ at most in the message list and the loading
    flag. *)
Definition same_but_messages (s s' : ChatState) : Prop :=
  showChatPanel s' = showChatPanel s
  /\ customerId s' = customerId s
  /\ conversations s' = conversations s
  /\ selectedConversationId s' = selectedConversationId s
  /\ isSending s' = isSending s.

(** The request that [sendMessage] sends: JSON for a text alone, a form
    with the files otherwise. *)
Definition send_request (c : Z) (text : jsstring) (files : option (list File.t)) : Request :=
  if no_files files then POST_chat_json c text
  else chat_request c (or_else (trim text) []) files.

(** ** Scenarios *)

Module Scenario.

Definition message (i c : Z) (a : Author) (t : string) : Message.t :=
  Message.mk i c a (js t) (js "2025-01-01T00:00:00.000Z").

Definition conversation (i : Z) (t : string) : Conversation.t :=
  Conversation.mk i 1 (js t) (js "thread") (js "2025-01-01T00:00:00.000Z").

Definition now : jsstring := js "2025-01-02T00:00:00.000Z".

Definition resume_pdf : File.t :=
  File.mk (js "resume.pdf") (js "application/pdf") 2048.

Definition http {T} (code : Z) (b : option T) : FetchResult T :=
  Resolved (mkResponse ((200 <=? code) && (code <=? 299)) code b).

(** A customer with conversations 1 and 2, the first one selected. *)
Definition two_conversations : ChatState :=
  mkChatState true (Some 1)
    [conversation 1 "Conversation 1"; conversation 2 "Conversation 2"]
    (Some 1) [message 10 1 agent "welcome"] false false.

(** Conversation 5 selected, one confirmed message in the list. *)
Definition chatting : ChatState :=
  mkChatState true (Some 1) [conversation 5 "Conversation 1"]
    (Some 5) [message 100 5 agent "How can I help?"] false false.

Definition world (s : ChatState) : World := mkWorld s [] [] [] [].

Definition of_conversation_2 : list Message.t :=
  [message 21 2 admin "hi"; message 22 2 agent "hello"].

Definition of_conversation_1 : list Message.t :=
  [message 10 1 agent "welcome"].

Definition reply_101_102 : SendReply :=
  mkSendReply (Some [message 101 5 admin "hello"; message 102 5 agent "hi there"]).

(** A backend that answers every request with 200. *)
Definition healthy : Net :=
  mkNet (fun _ c => http 200 (Some (if c =? 2 then of_conversation_2
                                    else if c =? 1 then of_conversation_1 else [])))
        (fun _ _ _ _ => http 200 (Some reply_101_102))
        (fun _ c t => http 200 (Some (Conversation.mk 3 c t (js "thread") now)))
        (fun _ _ => http 200 (Some tt)).

(** A backend that answers every request with 500. *)
Definition down : Net :=
  mkNet (fun _ _ => http 500 None) (fun _ _ _ _ => http 500 None)
        (fun _ _ _ => http 500 None) (fun _ _ => http 500 None).

Definition ok_messages (d : list Message.t) : Loop.Answer :=
  Loop.Messages (http 200 (Some d)).

(** The user selects conversation 1, then conversation 2 while the load
    of conversation 1 is in flight; the answer for 2 arrives first. *)
Definition stale_answer_last : list Loop.Event :=
  [ Loop.Select (Some 1); Loop.Select (Some 2);
    Loop.Arrive 1 (ok_messages of_conversation_2); Loop.Frame;
    Loop.Arrive 0 (ok_messages of_conversation_1); Loop.Frame ].

Definition nothing_selected : ChatState :=
  mkChatState true (Some 1)
    [conversation 1 "Conversation 1"; conversation 2 "Conversation 2"]
    None [] false false.

(** The panel in the middle of the animation of message 102. *)
Definition typing_102 : ChatPanel.t :=
  ChatPanel.step (ChatPanel.Fired 1)
    (ChatPanel.step
       (ChatPanel.Props [message 101 5 admin "hello"; message 102 5 agent "Hi, there friend."] false)
       ChatPanel.mounted).

(** Agent message 104 arrives. *)
Definition arrival_104 : ChatPanel.Event :=
  ChatPanel.Props
    [ message 101 5 admin "hello"; message 102 5 agent "Hi, there friend.";
      message 103 5 admin "more?"; message 104 5 agent "Sure." ] false.

Definition selected_files : list File.t :=
  [ File.mk (js "resume.pdf") (js "application/pdf") 2048;
    File.mk (js "setup.exe") (js "application/x-msdownload") 2048;
    File.mk (js "huge.md") (js "") (11 * 1024 * 1024);
    File.mk (js "notes.md") (js "") 512 ].

(** A backend whose first answer is 500 and every later one 200. *)
Definition flaky : Net :=
  mkNet (fun n c => if (n =? 0)%nat then http 500 None
                    else http 200 (Some (if c =? 2 then of_conversation_2
                                         else if c =? 1 then of_conversation_1 else [])))
        (fun _ _ _ _ => http 500 None)
        (fun _ _ _ => http 500 None) (fun _ _ => http 500 None).

(** A backend that answers a send with 200 and no messages. *)
Definition silent : Net :=
  mkNet (fun _ _ => http 200 (Some of_conversation_1))
        (fun _ _ _ _ => http 200 (Some (mkSendReply None)))
        (fun _ _ _ => http 500 None) (fun _ _ => http 500 None).

(** The composer with a text and one file. *)
Definition draft : ChatPanel.Composer :=
  ChatPanel.mkComposer (js " see attached ")
    [ChatPanel.mkUploadedFile (js "1-0.5") resume_pdf None].

(** The panel at the start of the animation of message 102. *)
Definition typing_started : ChatPanel.t :=
  ChatPanel.step
    (ChatPanel.Props [message 101 5 admin "hello"; message 102 5 agent "Hi, there friend."] false)
    ChatPanel.mounted.

(** The panel after the animation of message 102 has run to its end. *)
Definition typed_102 : ChatPanel.t := Nat.iter 11 ChatPanel.tick typing_started.

End Scenario.

(** * Properties *)

(** ** Laws of [exec] *)

Section ExecLaws.
Context {A B : Type} (net : Net).

Lemma exec_bind (m : Async A) (f : A -> Async B) w :
  exec net (m ≫= f) w =
  match exec net m w with
  | (Returned a, w') => exec net (f a) w'
  | (Threw e, w') => (Threw e, w')
  end.
Proof.
  unfold mbind, Async_bind.
  revert w; induction m; intros w; simpl; auto.
Qed.

Lemma exec_try_catch (m : Async A) h w :
  exec net (try_catch m h) w =
  match exec net m w with
  | (Returned a, w') => (Returned a, w')
  | (Threw e, w') => exec net (h e) w'
  end.
Proof. revert w; induction m; intros w; simpl; auto. Qed.
End ExecLaws.

(** A call only ever adds requests. *)
Lemma exec_requests_grow {A} net (p : Async A) w :
  exists more, requests (snd (exec net p w)) = requests w ++ more.
Proof.
  revert w; induction p; intros w; simpl;
    try (exists []; now rewrite app_nil_r);
    try (destruct (IHp (with_ui f w)) as [more ->]; now exists more);
    try match goal with
        | IH : forall w, exists _, _ |- context [exec net ?k ?w'] =>
            destruct (IH w') as [more ->]; simpl; now eauto
        | IH : forall r w, exists _, _ |- context [exec net (?k ?r) ?w'] =>
            destruct (IH r w') as [more ->]; simpl; rewrite <- app_assoc; now eauto
        end.
Qed.

Lemma failed_payload {T} (r : FetchResult T) : failed r = true -> payload r = None.
Proof. destruct r as [|[[] ? ?]]; simpl; congruence. Qed.

(** ** Strings *)

Lemma jsstring_eqb_eq a b : jsstring_eqb a b = true <-> a = b.
Proof. unfold jsstring_eqb. apply bool_decide_eq_true. Qed.

Lemma endsWith_suffix s suffix :
  endsWith s suffix = true <-> exists pre, s = pre ++ suffix.
Proof.
  unfold endsWith. rewrite andb_true_iff, jsstring_eqb_eq, Nat.leb_le. split.
  - intros [H _]. exists (firstn (length s - length suffix) s).
    pose proof (firstn_skipn (length s - length suffix) s) as E.
    rewrite H in E. now symmetry.
  - intros [pre ->]. rewrite length_app. split; [|lia].
    replace (length pre + length suffix - length suffix)%nat with (length pre) by lia.
    rewrite skipn_app, Nat.sub_diag, skipn_all. reflexivity.
Qed.

Lemma trimStart_suffix s :
  exists pre, s = pre ++ trimStart s /\ blank pre.
Proof.
  induction s as [|ch s (pre & IH & Hpre)]; simpl.
  - exists []. split; [reflexivity | constructor].
  - destruct (isWhiteSpace ch) eqn:E.
    + exists (ch :: pre). split; [simpl; congruence | now constructor].
    + exists []. split; [reflexivity | constructor].
Qed.

Lemma trimStart_head s ch rest :
  trimStart s = ch :: rest -> isWhiteSpace ch = false.
Proof.
  induction s as [|d s IH]; simpl; [discriminate|].
  destruct (isWhiteSpace d) eqn:E; [exact IH|]. intros H. now injection H as <- _.
Qed.

Lemma trimStart_fixed ch s : isWhiteSpace ch = false -> trimStart (ch :: s) = ch :: s.
Proof. intros H. simpl. now rewrite H. Qed.

Lemma trimStart_nil s : trimStart s = [] <-> blank s.
Proof.
  unfold blank. induction s as [|ch s IH]; simpl.
  - split; [constructor | reflexivity].
  - destruct (isWhiteSpace ch) eqn:E.
    + rewrite IH. split; [now constructor | now inversion 1].
    + split; [discriminate | intros H; apply List.Forall_inv in H; simpl in H; congruence].
Qed.

Lemma blank_rev s : blank (rev s) <-> blank s.
Proof.
  unfold blank. rewrite !List.Forall_forall.
  split; intros H x Hx; apply H;
    [apply (proj1 (List.in_rev _ _)) | apply (proj2 (List.in_rev _ _))]; exact Hx.
Qed.

(** [trim] gives the empty string exactly on strings of white space. *)
Lemma trim_nil s : trim s = [] <-> blank s.
Proof.
  unfold trim, trimEnd.
  split.
  - intros H. apply (f_equal (@rev N)) in H. rewrite rev_involutive in H. simpl in H.
    apply trimStart_nil in H. apply (proj1 (blank_rev _)) in H.
    apply trimStart_nil. destruct (trimStart s) as [|ch rest] eqn:E; [reflexivity|].
    apply trimStart_head in E. apply List.Forall_inv in H. simpl in H. congruence.
  - intros H. apply trimStart_nil in H. rewrite H. reflexivity.
Qed.

Lemma trim_head_kept ch s : isWhiteSpace ch = false -> trim (ch :: s) <> [].
Proof.
  intros H E. apply trim_nil in E. apply List.Forall_inv in E. simpl in E. congruence.
Qed.

(** What [trim] returns neither starts nor ends with white space. *)
Lemma trim_ends s :
  trim s = [] \/
  exists a b mid, (trim s = [a] /\ a = b \/ trim s = a :: mid ++ [b])
                  /\ isWhiteSpace a = false /\ isWhiteSpace b = false.
Proof.
  unfold trim, trimEnd.
  destruct (trimStart s) as [|a t] eqn:Et; [now left|].
  pose proof (trimStart_head _ _ _ Et) as Ha.
  destruct (trimStart (rev (a :: t))) as [|b u] eqn:Eu.
  - apply trimStart_nil in Eu. apply (proj1 (blank_rev _)) in Eu. apply List.Forall_inv in Eu. simpl in Eu. congruence.
  - right. pose proof (trimStart_head _ _ _ Eu) as Hb.
    destruct (trimStart_suffix (rev (a :: t))) as (pre & Hsplit & _).
    rewrite Eu in Hsplit.
    apply (f_equal (@rev N)) in Hsplit.
    rewrite rev_involutive, rev_app_distr in Hsplit.
    change (rev (b :: u)) with (rev u ++ [b]) in *.
    destruct (rev u) as [|a' mid]; simpl in Hsplit |- *; injection Hsplit as <- _.
    + exists a, a, []. auto.
    + exists a, b, mid. auto.
Qed.

Lemma trim_fixed_ends a mid b :
  isWhiteSpace a = false -> isWhiteSpace b = false ->
  trim (a :: mid ++ [b]) = a :: mid ++ [b].
Proof.
  intros Ha Hb. unfold trim, trimEnd. rewrite (trimStart_fixed a) by exact Ha.
  assert (E : rev (a :: mid ++ [b]) = b :: rev (a :: mid)).
  { change (a :: mid ++ [b]) with ((a :: mid) ++ [b]). now rewrite rev_app_distr. }
  rewrite E, (trimStart_fixed b) by exact Hb.
  rewrite <- E. apply rev_involutive.
Qed.

Lemma trim_fixed_single a : isWhiteSpace a = false -> trim [a] = [a].
Proof. intros Ha. unfold trim, trimEnd. simpl. rewrite Ha. simpl. now rewrite Ha. Qed.

(** [trim] is idempotent. *)
Lemma trim_idempotent s : trim (trim s) = trim s.
Proof.
  destruct (trim_ends s) as [-> | (a & b & mid & [[-> <-] | ->] & Ha & Hb)].
  - reflexivity.
  - now apply trim_fixed_single.
  - now apply trim_fixed_ends.
Qed.

(** ** Decimal numerals *)

Lemma digit_not_white ch : digit ch -> isWhiteSpace ch = false.
Proof.
  unfold digit. intros [H1 H2].
  assert (H : In ch [48; 49; 50; 51; 52; 53; 54; 55; 56; 57]%N).
  { simpl. lia. }
  simpl in H. repeat (destruct H as [<- | H]; [reflexivity|]). destruct H.
Qed.

Lemma digits_of_uint d :
  Forall digit (js (DecimalString.NilEmpty.string_of_uint d)).
Proof.
  induction d; simpl; constructor; try assumption; unfold digit; simpl; lia.
Qed.

Lemma decimal_digits n : Forall digit (decimal n) /\ decimal n <> [].
Proof.
  unfold decimal, DecimalString.NilZero.string_of_uint.
  destruct (Nat.to_uint n) eqn:E.
  - split; [repeat constructor; unfold digit; simpl; lia | discriminate].
  - split; [apply digits_of_uint | discriminate].
  - split; [apply digits_of_uint | discriminate].
  - split; [apply digits_of_uint | discriminate].
  - split; [apply digits_of_uint | discriminate].
  - split; [apply digits_of_uint | discriminate].
  - split; [apply digits_of_uint | discriminate].
  - split; [apply digits_of_uint | discriminate].
  - split; [apply digits_of_uint | discriminate].
  - split; [apply digits_of_uint | discriminate].
  - split; [apply digits_of_uint | discriminate].
Qed.

(** The default title is its own trimmed form. *)
Lemma default_title_trimmed n :
  let t := js "Conversation " ++ decimal n in
  trim t = t /\ t <> [].
Proof.
  cbv zeta. destruct (decimal_digits n) as [Hd Hne].
  destruct (exists_last Hne) as (ds & d & E). rewrite E in *.
  split; [|discriminate].
  apply Forall_app in Hd. destruct Hd as [_ Hd]. apply List.Forall_inv in Hd.
  change (js "Conversation " ++ ds ++ [d])
    with (67%N :: (js "onversation " ++ ds) ++ [d]).
  apply trim_fixed_ends; [reflexivity | now apply digit_not_white].
Qed.

(** ** [loadMessages] *)

Lemma frames_compose (fs : list (ChatState -> ChatState)) :
  Forall (fun cb => exists g, cb = setMessages g) fs ->
  exists G, forall s, fold_left (fun s cb => cb s) fs s = setMessages G s.
Proof.
  induction 1 as [|cb fs [g ->] _ [G IH]]; simpl.
  - exists (fun ms => ms). now intros [].
  - exists (fun ms => G (g ms)). intros s. now rewrite IH.
Qed.

Lemma same_but_messages_setMessages G s : same_but_messages s (setMessages G s).
Proof. repeat split. Qed.

Section LoadMessages.
Variables (window : bool) (net : Net) (c : Z).

(** One pass through the loop: the answer is applied, or waited out, or
    given up on. *)
Lemma exec_attempt retries delay attempt w :
  let r := on_messages net (length (requests w)) c in
  let w1 := requested (GET_messages c) w in
  exec net (loadMessages_attempt window c retries delay attempt) w =
  match payload r with
  | Some d =>
      (Returned Return,
       with_ui (setIsLoadingMessages false)
         ((if window then framed else with_ui) (setMessages (fun _ => d)) w1))
  | None =>
      if attempt <? retries - 1 then
        (Returned Continue,
         with_ui (setIsLoadingMessages false) (slept (delay * 2 ^ attempt) w1))
      else
        (Returned match r with
                  | Resolved res => if ok res then FallThrough else Return
                  | Rejected => FallThrough
                  end,
         with_ui (setIsLoadingMessages false)
           (with_ui (setMessages (fun _ => []))
              (logged
                 match r with
                 | Resolved res =>
                     if ok res
                     then [LStr (js "Error loading messages"); LErr SyntaxError]
                     else [LStr (js "Failed to load messages"); LNum (status res)]
                 | Rejected => [LStr (js "Error loading messages"); LErr NetworkError]
                 end w1)))
  end.
Proof.
  intros r w1. subst r w1. unfold loadMessages_attempt, finally. simpl.
  destruct (on_messages net (length (requests w)) c) as [|[[] st [d|]]]; simpl;
    destruct (attempt <? retries - 1); try destruct window; reflexivity.
Qed.

Ltac count_requests H :=
  cbn [requests with_ui slept requested logged framed] in H;
  rewrite ?length_app in H; cbn [length] in H; rewrite ?Nat.add_1_r in H.

(** Unrolls one pass of the loop and splits on the answer to its fetch:
    a payload ends the loop, anything else leads to the next pass. *)
Ltac one_pass :=
  cbn [loadMessages_loop]; rewrite exec_bind, exec_attempt; cbv zeta;
  let E := fresh "E" in
  match goal with
  | |- context [match payload ?r with _ => _ end] => destruct (payload r) eqn:E
  end;
  count_requests E;
  [ | first [ change (_ <? _) with true; cbv iota
            | change (_ <? _) with false; cbv iota ] ].

(** After the last pass every exit leaves the loop. *)
Ltac leave_loop :=
  cbn [loadMessages_loop];
  match goal with
  | |- context [exec _ (match ?e with Continue => _ | _ => _ end) _] => destruct e
  end;
  cbn [exec].

Ltac three_passes :=
  unfold loadMessages, loadMessages_with;
  rewrite exec_bind; cbn [set_state exec];
  one_pass; [ | one_pass; [ | one_pass; [ | leave_loop ] ] ].

Lemma loadMessages_returns w :
  fst (exec net (loadMessages window c) w) = Returned tt.
Proof. three_passes; reflexivity. Qed.

Lemma loadMessages_first_request w :
  exists more,
    requests (snd (exec net (loadMessages window c) w)) =
    requests w ++ GET_messages c :: more.
Proof.
  three_passes; destruct window; cbn; rewrite <- ?app_assoc; cbn; eauto.
Qed.

(** [loadMessages] writes [messages] and [isLoadingMessages] only. *)
Lemma loadMessages_keeps_selection w :
  frames w = [] ->
  let w' := snd (run net (loadMessages window c) w) in
  conversations (ui w') = conversations (ui w)
  /\ selectedConversationId (ui w') = selectedConversationId (ui w)
  /\ showChatPanel (ui w') = showChatPanel (ui w).
Proof.
  intros Hf. unfold run. three_passes; destruct window; cbn; rewrite Hf; auto.
Qed.

(** Against a backend that gives the same answer [r] every time, the list
    ends up as the payload of [r], or empty when [r] has none. *)
Lemma loadMessages_settles r w :
  (forall n, on_messages net n c = r) ->
  frames w = [] ->
  let w' := snd (run net (loadMessages window c) w) in
  messages (ui w') = default [] (payload r) /\ frames w' = [].
Proof.
  intros Hr Hf. unfold run. three_passes;
    repeat match goal with H : payload (on_messages _ _ _) = _ |- _ =>
             rewrite Hr in H end;
    destruct window; cbn; rewrite ?Hf; cbn;
    repeat match goal with H : payload r = _ |- _ => rewrite H; clear H end;
    auto; congruence.
Qed.

(** C4.  [loadMessages(conversationId)] always returns normally, after at
    most three GET requests.  When the first three answers fail (rejected
    promise or non-2xx status) it has made exactly three requests, waited
    [300 * 2^0] and [300 * 2^1] milliseconds between them, logged one
    error and set the message list to the empty list. *)
Theorem loadMessages_three_attempts w :
  frames w = [] ->
  exists w' k,
    run net (loadMessages window c) w = (Returned tt, w') /\
    (k <= 3)%nat /\
    requests w' = requests w ++ repeat (GET_messages c) k /\
    (failed (on_messages net (length (requests w)) c) = true ->
     failed (on_messages net (S (length (requests w))) c) = true ->
     failed (on_messages net (S (S (length (requests w)))) c) = true ->
     k = 3%nat /\
     messages (ui w') = [] /\
     sleeps w' = sleeps w ++ [300 * 2 ^ 0; 300 * 2 ^ 1] /\
     exists entry, console w' = console w ++ [entry]).
Proof.
  intros Hf. unfold run. three_passes.
  1: eexists; exists 1%nat.
  2: eexists; exists 2%nat.
  3-6: eexists; exists 3%nat.
  all: (split; [reflexivity|]); (split; [lia|]); split;
    [ destruct window; cbn; rewrite <- ?app_assoc; reflexivity | ].
  all: intros F1 F2 F3;
    apply failed_payload in F1; apply failed_payload in F2; apply failed_payload in F3;
    try congruence.
  all: cbn; rewrite Hf, <- ?app_assoc; cbn; eauto 6.
Qed.

(** C7.  Against a backend whose answer for the conversation does not
    change, a second [loadMessages] right after the first leaves the same
    message list. *)
Theorem loadMessages_idempotent r w :
  (forall n, on_messages net n c = r) ->
  frames w = [] ->
  let once := snd (run net (loadMessages window c) w) in
  let twice := snd (run net (loadMessages window c) once) in
  messages (ui twice) = messages (ui once).
Proof.
  intros Hr Hf once twice.
  destruct (loadMessages_settles r w Hr Hf) as [H1 H2].
  destruct (loadMessages_settles r once Hr H2) as [H3 _].
  fold once in H1. fold twice in H3. congruence.
Qed.

(** What a load leaves behind, before the frame. *)
Lemma loadMessages_footprint w :
  let w' := snd (exec net (loadMessages window c) w) in
  same_but_messages (ui w) (ui w')
  /\ isLoadingMessages (ui w') = false
  /\ (exists fs, frames w' = frames w ++ fs
                 /\ Forall (fun cb => exists g, cb = setMessages g) fs)
  /\ (exists k, (1 <= k <= 3)%nat
                /\ requests w' = requests w ++ repeat (GET_messages c) k).
Proof.
  cbv zeta. three_passes.
  all: split; [destruct window; repeat split|].
  all: split; [destruct window; reflexivity|].
  all: split;
    [ destruct window; cbn;
      first [ exists []; split; [now rewrite app_nil_r | constructor]
            | eexists [_]; split; [reflexivity | repeat constructor; eauto] ]
    | ].
  1: exists 1%nat. 2: exists 2%nat. 3-6: exists 3%nat.
  all: split; [lia|]; destruct window; cbn; rewrite <- ?app_assoc; reflexivity.
Qed.

(** X1.  A load touches the message list and the loading flag and
    nothing else of the state: the panel flag, the customer, the
    conversations, the selection and [isSending] are as before, the
    loading flag is false again, and no frame is left pending. *)
Theorem loadMessages_touches_messages_only w :
  frames w = [] ->
  let w' := snd (run net (loadMessages window c) w) in
  same_but_messages (ui w) (ui w')
  /\ isLoadingMessages (ui w') = false
  /\ frames w' = [].
Proof.
  intros Hf. unfold run.
  destruct (loadMessages_footprint w) as (Hsame & Hload & (fs & Hfs & Hall) & _).
  destruct (exec net (loadMessages window c) w) as [r w2]. cbn [snd] in *.
  rewrite Hf in Hfs. cbn in Hfs.
  destruct (frames_compose fs Hall) as [G HG].
  unfold next_frame. cbn [ui frames]. rewrite Hfs, HG.
  destruct Hsame as (H1 & H2 & H3 & H4 & H5).
  repeat split; cbn; assumption.
Qed.

(** X2.  The first answer with a payload ends the retries: when the
    answers before attempt [k] fail and that of attempt [k] carries the
    list [d], the load has sent [k + 1] GETs, waited 300 * 2^i ms after
    failure [i], logged nothing, and the list is [d]. *)
Theorem loadMessages_recovers w d k :
  frames w = [] ->
  (k < 3)%nat ->
  (forall i, (i < k)%nat ->
     payload (on_messages net (length (requests w) + i) c) = None) ->
  payload (on_messages net (length (requests w) + k) c) = Some d ->
  exists w',
    run net (loadMessages window c) w = (Returned tt, w')
    /\ messages (ui w') = d
    /\ requests w' = requests w ++ repeat (GET_messages c) (S k)
    /\ sleeps w' = sleeps w ++ List.map (fun i => 300 * 2 ^ Z.of_nat i) (seq 0 k)
    /\ console w' = console w.
Proof.
  intros Hf Hk Hnone Hsome.
  assert (H0 := Hnone 0%nat). assert (H1 := Hnone 1%nat).
  rewrite Nat.add_0_r in H0. rewrite Nat.add_1_r in H1.
  unfold run.
  destruct k as [|[|[|k]]]; [| | |lia];
    rewrite ?Nat.add_0_r, ?Nat.add_1_r in Hsome;
    try replace (length (requests w) + 2)%nat with (S (S (length (requests w)))) in Hsome by lia.
  - three_passes; try congruence.
    eexists; split; [reflexivity|].
    destruct window; cbn; rewrite ?Hf; cbn; repeat split; now rewrite ?app_nil_r; congruence.
  - specialize (H0 ltac:(lia)).
    three_passes; try congruence.
    eexists; split; [reflexivity|].
    destruct window; cbn; rewrite ?Hf, <- ?app_assoc; cbn; repeat split; congruence.
  - specialize (H0 ltac:(lia)). specialize (H1 ltac:(lia)).
    three_passes; try congruence.
    eexists; split; [reflexivity|].
    destruct window; cbn; rewrite ?Hf, <- ?app_assoc; cbn; repeat split; congruence.
Qed.

End LoadMessages.

(** ** [sendMessage] *)


Lemma not_placeholder'_false text m :
  not_placeholder' text m = false <-> is_placeholder text m.
Proof.
  unfold not_placeholder', is_placeholder.
  rewrite negb_false_iff, andb_true_iff, Z.eqb_eq, jsstring_eqb_eq. tauto.
Qed.

(** A list without placeholders for [text] passes the filter whole. *)
Lemma filter_keeps_all text ms :
  Forall (fun m => ~ is_placeholder text m) ms ->
  List.filter (not_placeholder' text) ms = ms.
Proof.
  induction 1 as [|m ms Hm _ IH]; simpl; [reflexivity|].
  destruct (not_placeholder' text m) eqn:E.
  - now rewrite IH.
  - apply not_placeholder'_false in E. contradiction.
Qed.

(** The filters find the placeholder of a send whose text does not trim to
    the empty string. *)
Lemma placeholder_dropped now c text :
  trim text <> [] ->
  not_placeholder' text (tempAdminMessage now c text) = false.
Proof.
  intros Ht. apply not_placeholder'_false. split; [reflexivity|].
  unfold tempAdminMessage, or_else; simpl.
  destruct (trim text); [contradiction | reflexivity].
Qed.

Section SendMessage.
Variables (window : bool) (net : Net) (now : jsstring) (c : Z).

(** With a text that does not trim to the empty string, a confirmed send
    replaces the placeholder by the messages of the answer. *)
Lemma sendMessage_confirmed text files w m ms :
  trim text <> [] ->
  frames w = [] ->
  payload (chat_answer net w c text files) = Some (mkSendReply (Some (m :: ms))) ->
  messages (ui (snd (run net (sendMessage window now c text files) w))) =
  List.filter (not_placeholder' text) (messages (ui w)) ++ m :: ms.
Proof.
  intros Ht Hf Hp. unfold run, sendMessage, chat_answer, finally in *.
  pose proof (placeholder_dropped now c text Ht) as Hdrop.
  destruct (trim text) as [|ch tl] eqn:Etrim; [contradiction|].
  simpl falsy. simpl andb. cbv iota.
  destruct (no_files files) eqn:Enf; simpl;
    match goal with
    | |- context [on_chat ?n ?i ?c ?t ?f] =>
        destruct (on_chat n i c t f) as [|[[] st [d|]]]; try discriminate
    end;
    simpl in Hp; injection Hp as ->; simpl;
    destruct window; simpl; rewrite ?Hf; simpl;
    rewrite List.filter_app; simpl; rewrite Hdrop, app_nil_r; reflexivity.
Qed.


(** When the list held no placeholder for the same text, the send has
    added the messages of the answer at the end and nothing else. *)
Corollary sendMessage_confirmed_appends text files w m ms :
  trim text <> [] ->
  frames w = [] ->
  Forall (fun x => ~ is_placeholder text x) (messages (ui w)) ->
  payload (chat_answer net w c text files) = Some (mkSendReply (Some (m :: ms))) ->
  messages (ui (snd (run net (sendMessage window now c text files) w))) =
  messages (ui w) ++ m :: ms.
Proof.
  intros Ht Hf Hnone Hp.
  rewrite (sendMessage_confirmed text files w m ms Ht Hf Hp).
  now rewrite filter_keeps_all.
Qed.


(** C6.  With a text that trims to the empty string and no file,
    [sendMessage] returns at once: no request, no log entry, and the
    state is the one it started from. *)
Theorem sendMessage_blank_is_noop text files w :
  trim text = [] ->
  files = None \/ files = Some [] ->
  exec net (sendMessage window now c text files) w = (Returned tt, w).
Proof.
  intros Ht Hfiles. unfold sendMessage. rewrite Ht.
  destruct Hfiles as [-> | ->]; reflexivity.
Qed.

End SendMessage.

(** [sendMessage(5, "hello")] confirmed with the messages 101 and 102. *)
Example send_hello_confirmed :
  let w' := snd (run Scenario.healthy
                   (sendMessage true Scenario.now 5 (js "hello") None)
                   (Scenario.world Scenario.chatting)) in
  List.map Message.id (messages (ui w')) = [100; 101; 102]
  /\ requests w' = [POST_chat_json 5 (js "hello")]
  /\ isSending (ui w') = false.
Proof. repeat split. Qed.

(** C1.  A send of files with an empty text, confirmed by the backend with
    the messages 101 and 102: the placeholder [-1] stays in the list, in
    front of the confirmed messages. *)
Theorem sendMessage_files_only_leaks_placeholder :
  let w' := snd (run Scenario.healthy
                   (sendMessage true Scenario.now 5 [] (Some [Scenario.resume_pdf]))
                   (Scenario.world Scenario.chatting)) in
  List.map Message.id (messages (ui w')) = [100; -1; 101; 102]
  /\ exists m, In m (messages (ui w')) /\ Message.id m = -1.
Proof.
  split; [reflexivity|].
  eexists; split; [right; left; reflexivity | reflexivity].
Qed.

(** C2.  A send of files with a blank text that the backend answers with
    500: the placeholder [-1] stays in the list, so the ids after the call
    are not the ids before it. *)
Theorem sendMessage_files_only_failure_keeps_placeholder :
  let w := Scenario.world Scenario.chatting in
  let w' := snd (run Scenario.down
                   (sendMessage true Scenario.now 5 (js "  ")
                      (Some [Scenario.resume_pdf])) w) in
  List.map Message.id (messages (ui w')) = [100; -1]
  /\ id_set (messages (ui w')) <> id_set (messages (ui w)).
Proof.
  split; [reflexivity|].
  intros H.
  assert (Hin : -1 ∈ id_set (messages (ui (Scenario.world Scenario.chatting)))).
  { rewrite <- H. unfold id_set. apply elem_of_list_to_set. simpl. set_solver. }
  unfold id_set in Hin. apply elem_of_list_to_set in Hin. simpl in Hin.
  set_solver.
Qed.

(** *** Every answer to a send *)

Lemma exec_sleeps_grow {A} net (p : Async A) w :
  exists more, sleeps (snd (exec net p w)) = sleeps w ++ more.
Proof.
  revert w; induction p; intros w; simpl;
    try (exists []; now rewrite app_nil_r);
    try (destruct (IHp (with_ui f w)) as [more ->]; now exists more);
    try match goal with
        | IH : forall w, exists _, _ |- context [exec net ?k ?w'] =>
            destruct (IH w') as [more ->]; simpl; rewrite <- ?app_assoc; now eauto
        | IH : forall r w, exists _, _ |- context [exec net (?k ?r) ?w'] =>
            destruct (IH r w') as [more ->]; simpl; now eauto
        end.
Qed.

Lemma smooth_requests (b : bool) f w :
  requests ((if b then framed else with_ui) f w) = requests w.
Proof. now destruct b. Qed.

Section SendMessageAnswers.
Variables (window : bool) (net : Net) (now : jsstring) (c : Z).

#[local] Arguments loadMessages : simpl never.
#[local] Arguments js : simpl never.

Lemma exec_bind' {A B} (m : Async A) (f : A -> Async B) w :
  exec net (bind m f) w =
  match exec net m w with
  | (Returned a, w') => exec net (f a) w'
  | (Threw e, w') => (Threw e, w')
  end.
Proof. exact (exec_bind net m f w). Qed.


Lemma exec_sendMessage text files w :
  falsy (trim text) && no_files files = false ->
  let w1 := requested (send_request c text files)
              (with_ui (setIsSending true)
                 (with_ui (setMessages (fun prev => prev ++ [tempAdminMessage now c text])) w)) in
  let gave_up keep entry :=
    with_ui (setIsSending false)
      (logged entry (with_ui (setMessages (List.filter keep)) w1)) in
  exec net (sendMessage window now c text files) w =
  (Returned tt,
   match chat_answer net w c text files with
   | Rejected =>
       gave_up (not_placeholder' text)
         [LStr (js "Error talking to chat backend"); LErr NetworkError]
   | Resolved res =>
       if ok res then
         match body res with
         | None =>
             gave_up (not_placeholder' text)
               [LStr (js "Error talking to chat backend"); LErr SyntaxError]
         | Some data =>
             match reply_messages data with
             | Some (m :: ms) =>
                 with_ui (setIsSending false)
                   ((if window then framed else with_ui)
                      (setMessages (fun prev =>
                         List.filter (not_placeholder' text) prev ++ m :: ms)) w1)
             | _ =>
                 with_ui (setIsSending false)
                   (snd (exec net (loadMessages window c) (slept 100 w1)))
             end
         end
       else
         gave_up (not_placeholder text)
           [LStr (js "Failed to send chat message"); LNum (status res)]
   end).
Proof.
  intros Hg w1 gave_up. subst w1 gave_up.
  unfold sendMessage, chat_answer, send_request, finally. rewrite Hg.
  destruct (no_files files) eqn:Enf; cbn;
    match goal with
    | |- context [on_chat ?n ?i ?c ?t ?f] =>
        destruct (on_chat n i c t f) as [|[[] st [[[[|m ms]|]]|]]]
    end; cbn; try destruct window; cbn; try reflexivity.
  all: rewrite exec_bind', !exec_try_catch;
    match goal with
    | |- context [exec net (loadMessages ?win c) ?w0] =>
        pose proof (loadMessages_returns win net c w0) as Hret;
        destruct (exec net (loadMessages win c) w0) as [r w2]
    end; simpl in Hret; subst r; reflexivity.
Qed.


(** X3.  Whatever the backend answers, [sendMessage] returns normally,
    leaves the panel flag, the customer, the conversations and the
    selection as they were, and, when it has passed its guard, ends with
    [isSending] false. *)
Theorem sendMessage_always_settles text files w :
  frames w = [] ->
  let result := run net (sendMessage window now c text files) w in
  fst result = Returned tt
  /\ showChatPanel (ui (snd result)) = showChatPanel (ui w)
  /\ customerId (ui (snd result)) = customerId (ui w)
  /\ conversations (ui (snd result)) = conversations (ui w)
  /\ selectedConversationId (ui (snd result)) = selectedConversationId (ui w)
  /\ (falsy (trim text) && no_files files = false ->
      isSending (ui (snd result)) = false).
Proof.
  intros Hf. cbv zeta. unfold run.
  destruct (falsy (trim text) && no_files files) eqn:Hg.
  - unfold sendMessage. rewrite Hg. cbn. rewrite Hf. repeat split; discriminate.
  - rewrite (exec_sendMessage text files w Hg). cbv zeta. cbn [fst snd].
    split; [reflexivity|].
    destruct (chat_answer net w c text files) as [|[[] st [[[[|m ms]|]]|]]];
      cbn [ok body reply_messages].
    all: try (cbn; rewrite Hf; cbn; repeat split; auto; fail).
    all: try (destruct window; cbn; rewrite Hf; cbn; repeat split; auto; fail).
    all: match goal with
         | |- context [exec net (loadMessages window c) ?w0] =>
             destruct (loadMessages_footprint window net c w0)
               as ((H1 & H2 & H3 & H4 & H5) & Hload & (fs & Hfs & Hall) & _);
             destruct (exec net (loadMessages window c) w0) as [r w2]
         end;
      cbn [snd] in *; cbn [frames slept requested with_ui] in Hfs;
      rewrite Hf in Hfs; cbn in Hfs;
      destruct (frames_compose fs Hall) as [G HG];
      unfold next_frame; cbn [ui frames with_ui]; rewrite Hfs, HG; cbn;
      repeat split; auto.
Qed.

(** X4.  A send is posted once and never retried: after the POST come
    at most the three GETs of the reload, and those only when the answer
    is [ok] and carries no messages. *)
Theorem sendMessage_posts_once text files w :
  falsy (trim text) && no_files files = false ->
  let w' := snd (run net (sendMessage window now c text files) w) in
  exists k,
    requests w' =
      requests w ++ send_request c text files :: repeat (GET_messages c) k
    /\ (k <= 3)%nat
    /\ (k <> 0%nat ->
        exists data, payload (chat_answer net w c text files) = Some data
                     /\ (reply_messages data = None \/ reply_messages data = Some [])).
Proof.
  intros Hg. cbv zeta. unfold run.
  rewrite (exec_sendMessage text files w Hg). cbv zeta. cbn [fst snd].
  destruct (chat_answer net w c text files) as [|[[] st [[[[|m ms]|]]|]]];
    cbn [ok body reply_messages payload].
  all: try (exists 0%nat; cbn; split; [reflexivity | split; [lia | intros H; exfalso; exact (H eq_refl)]]).
  all: try (exists 0%nat; cbn [next_frame requests with_ui];
            rewrite smooth_requests; cbn;
            split; [reflexivity | split; [lia | intros H; exfalso; exact (H eq_refl)]]).
  all: match goal with
       | |- context [exec net (loadMessages window c) ?w0] =>
           destruct (loadMessages_footprint window net c w0)
             as (_ & _ & _ & (k & Hk & Hreq));
           destruct (exec net (loadMessages window c) w0) as [r w2]
       end;
    cbn [snd] in *; exists k; cbn [next_frame requests with_ui];
    rewrite Hreq; cbn; rewrite <- app_assoc; cbn;
    (split; [reflexivity | split; [lia | intros _; eexists; split; [reflexivity | auto]]]).
Qed.

(** X5.  An [ok] answer without messages: the call waits 100 ms and
    reloads; against a backend with a settled answer [r] for the
    conversation the list ends as the payload of [r], or empty when [r]
    has none, whatever it held: the placeholder does not survive. *)
Theorem sendMessage_reloads text files w data r :
  falsy (trim text) && no_files files = false ->
  frames w = [] ->
  payload (chat_answer net w c text files) = Some data ->
  reply_messages data = None \/ reply_messages data = Some [] ->
  (forall n, on_messages net n c = r) ->
  let w' := snd (run net (sendMessage window now c text files) w) in
  messages (ui w') = default [] (payload r)
  /\ exists later, sleeps w' = sleeps w ++ 100 :: later.
Proof.
  intros Hg Hf Hp Hdata Hr. cbv zeta. unfold run.
  rewrite (exec_sendMessage text files w Hg). cbv zeta. cbn [fst snd].
  destruct (chat_answer net w c text files) as [|[[] st [d|]]]; try discriminate.
  cbn in Hp. injection Hp as ->. cbn [ok body].
  assert (Hshape : match reply_messages data with
                   | Some (_ :: _) => False
                   | _ => True
                   end).
  { destruct Hdata as [-> | ->]; exact I. }
  destruct (reply_messages data) as [[|m ms]|]; try contradiction.
  all: match goal with
       | |- context [exec net (loadMessages window c) ?w0] =>
           assert (Hf0 : frames w0 = []) by exact Hf;
           destruct (loadMessages_settles window net c r w0 Hr Hf0) as [Hm _];
           destruct (loadMessages_footprint window net c w0)
             as (_ & _ & (fs & Hfs & Hall) & _);
           destruct (exec_sleeps_grow net (loadMessages window c) w0) as [later Hlater];
           unfold run in Hm;
           destruct (exec net (loadMessages window c) w0) as [r0 w2]
       end;
    cbn [snd] in *; rewrite Hf0 in Hfs; cbn in Hfs;
    destruct (frames_compose fs Hall) as [G HG];
    unfold next_frame in *; cbn [ui frames with_ui sleeps] in *;
    rewrite Hfs, HG in *; cbn in *;
    (split; [exact Hm | exists later; rewrite Hlater; now rewrite <- app_assoc]).
Qed.
End SendMessageAnswers.

(** ** [createConversation] *)

Lemma trimmedTitle_default st title :
  title = None \/ (exists t, title = Some t /\ trim t = []) ->
  trimmedTitle st title =
  js "Conversation " ++ decimal (length (conversations st) + 1).
Proof.
  unfold trimmedTitle. intros [-> | (t & -> & ->)]; reflexivity.
Qed.

Section CreateConversation.
Variables (window : bool) (net : Net).

#[local] Arguments loadMessages : simpl never.

Lemma createConversation_created w title customer c :
  usable_customer (customerId (ui w)) = Some customer ->
  payload (on_create net (length (requests w)) customer
             (trimmedTitle (ui w) title)) = Some c ->
  exec net (createConversation window (ui w) title) w =
  (Returned (Some c),
   snd (exec net (loadMessages window (Conversation.id c))
          (with_ui (setShowChatPanel true)
             (with_ui (setSelectedConversationId (Some (Conversation.id c)))
                (with_ui (setConversations (fun prev => c :: prev))
                   (requested
                      (POST_conversations customer (trimmedTitle (ui w) title))
                      w)))))).
Proof.
  intros Hc Hp. unfold createConversation. rewrite Hc.
  destruct (on_create net _ _ _) as [|[[] st [d|]]] eqn:E; try discriminate.
  simpl in Hp. injection Hp as ->.
  cbn. rewrite E. cbn.
  rewrite exec_try_catch, exec_bind.
  pose proof (loadMessages_returns window net (Conversation.id c)) as Hret.
  match goal with
  | |- context [exec net (loadMessages window ?i) ?w0] =>
      specialize (Hret w0); destruct (exec net (loadMessages window i) w0) as [r w2]
  end.
  simpl in Hret. subst r. reflexivity.
Qed.

Lemma createConversation_refused w title customer :
  usable_customer (customerId (ui w)) = Some customer ->
  payload (on_create net (length (requests w)) customer
             (trimmedTitle (ui w) title)) = None ->
  exists entry,
    exec net (createConversation window (ui w) title) w =
    (Returned None,
     logged entry
       (requested (POST_conversations customer (trimmedTitle (ui w) title)) w)).
Proof.
  intros Hc Hp. unfold createConversation. rewrite Hc.
  destruct (on_create net _ _ _) as [|[[] st [d|]]] eqn:E; try discriminate;
    cbn; rewrite E; cbn; eexists; reflexivity.
Qed.

(** C9.  [createConversation] called without a usable title (none, or
    one that trims to the empty string):
    - without a customer it returns [null] and sends nothing;
    - otherwise it posts the title [Conversation n+1], [n] being the
      length of the conversation list;
    - on an [ok] answer that parses it returns the new conversation,
      which is put first in the list and selected, opens the panel and
      loads the messages of the new conversation;
    - on any other answer it returns [null], and the list and the
      selection are as before. *)
Theorem createConversation_default_title w title :
  title = None \/ (exists t, title = Some t /\ trim t = []) ->
  frames w = [] ->
  let st := ui w in
  let default_title :=
    js "Conversation " ++ decimal (length (conversations st) + 1) in
  let result := run net (createConversation window st title) w in
  let w' := snd result in
  (customerId st = None \/ customerId st = Some 0 ->
     fst result = Returned None
     /\ conversations (ui w') = conversations st
     /\ selectedConversationId (ui w') = selectedConversationId st
     /\ requests w' = requests w)
  /\ (forall customer, customerId st = Some customer -> customer <> 0 ->
      let answer := on_create net (length (requests w)) customer default_title in
      (exists more,
         requests w' = requests w ++ POST_conversations customer default_title :: more)
      /\ (forall c, payload answer = Some c ->
            fst result = Returned (Some c)
            /\ conversations (ui w') = c :: conversations st
            /\ selectedConversationId (ui w') = Some (Conversation.id c)
            /\ showChatPanel (ui w') = true
            /\ (exists more,
                  requests w' =
                  requests w ++ POST_conversations customer default_title
                             :: GET_messages (Conversation.id c) :: more)
            /\ (forall r, (forall n, on_messages net n (Conversation.id c) = r) ->
                  messages (ui w') = default [] (payload r)))
      /\ (payload answer = None ->
            fst result = Returned None
            /\ conversations (ui w') = conversations st
            /\ selectedConversationId (ui w') = selectedConversationId st)).
Proof.
  intros Htitle Hf st default_title. subst default_title.
  rewrite <- (trimmedTitle_default st title Htitle).
  intros result w'. subst st.
  split.
  - intros Hnone. subst w' result. unfold run, createConversation.
    destruct Hnone as [-> | ->]; cbn; rewrite Hf; auto.
  - intros customer Hcust Hne answer.
    assert (Hc : usable_customer (customerId (ui w)) = Some customer).
    { rewrite Hcust. destruct customer; simpl; congruence. }
    assert (Hcases : forall P : Prop,
              (forall c, payload answer = Some c -> P) ->
              (payload answer = None -> P) -> P).
    { intros P H1 H2. destruct (payload answer); eauto. }
    subst answer.
    split; [|split].
    + apply Hcases.
      * intros c Hp. subst w' result. unfold run.
        rewrite (createConversation_created _ _ _ _ Hc Hp).
        cbn [snd next_frame requests].
        match goal with
        | |- context [exec net (loadMessages window ?i) ?w1] =>
            destruct (loadMessages_first_request window net i w1) as [more ->]
        end.
        cbn. rewrite <- app_assoc. eauto.
      * intros Hp. subst w' result. unfold run.
        destruct (createConversation_refused _ _ _ Hc Hp) as [entry ->].
        cbn. exists []. reflexivity.
    + intros c Hp. subst w' result. unfold run.
      rewrite (createConversation_created _ _ _ _ Hc Hp). cbn [fst snd].
      set (w1 := with_ui (setShowChatPanel true) _).
      assert (Hf1 : frames w1 = []) by exact Hf.
      destruct (loadMessages_keeps_selection window net (Conversation.id c) w1 Hf1)
        as (Hconv & Hsel & Hshow).
      unfold run in Hconv, Hsel, Hshow.
      destruct (exec net (loadMessages window (Conversation.id c)) w1) as [r w2] eqn:E.
      cbn [snd] in *.
      split; [reflexivity|]. split; [exact Hconv|]. split; [exact Hsel|].
      split; [exact Hshow|]. split.
      * destruct (loadMessages_first_request window net (Conversation.id c) w1)
          as [more Hm].
        rewrite E in Hm. cbn [snd] in Hm. cbn [next_frame requests]. rewrite Hm.
        cbn. rewrite <- app_assoc. eauto.
      * intros r0 Hr0.
        destruct (loadMessages_settles window net (Conversation.id c) r0 w1 Hr0 Hf1)
          as [Hm _].
        unfold run in Hm. rewrite E in Hm. exact Hm.
    + intros Hp. subst w' result. unfold run.
      destruct (createConversation_refused _ _ _ Hc Hp) as [entry ->].
      cbn. rewrite Hf. auto.
Qed.

End CreateConversation.

(** ** [deleteConversation] *)

Lemma delete_updater_conversations rendered c s :
  conversations (delete_updater rendered c s) =
  List.filter (fun x => negb (Conversation.id x =? c)) (conversations s).
Proof.
  unfold delete_updater.
  destruct (is_selected _ _); [destruct (List.filter _ _)|]; reflexivity.
Qed.

Lemma delete_updater_selected rendered c s :
  selectedConversationId (delete_updater rendered c s) =
  if is_selected (selectedConversationId rendered) c then
    match List.filter (fun x => negb (Conversation.id x =? c)) (conversations s) with
    | x :: _ => Some (Conversation.id x)
    | [] => None
    end
  else selectedConversationId s.
Proof.
  unfold delete_updater.
  destruct (is_selected _ _); [destruct (List.filter _ _)|]; reflexivity.
Qed.

(** C5.  A [deleteConversation(conversationId)] whose DELETE is answered
    with an [ok] status leaves the conversation list without that
    conversation.  When the conversation was the selected one and others
    remain, the first of those is selected and the message list is empty
    when the call ends; the GET for the messages of the replacement is made
    after that, by the selection effect.  When no conversation remains (and
    the selection was the deleted conversation, or at least one of the
    list), the selection is none. *)
Theorem deleteConversation_success window net conversationId w res :
  on_delete net (length (requests w)) conversationId = Resolved res ->
  ok res = true ->
  let st := ui w in
  let updated :=
    List.filter (fun c => negb (Conversation.id c =? conversationId))
                (conversations st) in
  let w' := snd (exec net (deleteConversation st conversationId) w) in
  conversations (ui w') = updated
  /\ ~ In conversationId (List.map Conversation.id (conversations (ui w')))
  /\ requests w' = requests w ++ [DELETE_conversation conversationId]
  /\ (selectedConversationId st = Some conversationId ->
      forall c rest, updated = c :: rest ->
        selectedConversationId (ui w') = Some (Conversation.id c)
        /\ messages (ui w') = []
        /\ exists more,
             requests (snd (exec net
                              (selectionEffect window (selectedConversationId (ui w')))
                              w'))
             = requests w' ++ GET_messages (Conversation.id c) :: more)
  /\ (updated = [] ->
      selectedConversationId st = Some conversationId \/ selection_in_list st ->
      selectedConversationId (ui w') = None).
Proof.
  intros Hd Hok st updated w'.
  assert (Hw' : w' =
    let w1 := with_ui (delete_updater st conversationId)
                (requested (DELETE_conversation conversationId) w) in
    if is_selected (selectedConversationId st) conversationId
    then with_ui (setMessages (fun _ => [])) w1 else w1).
  { subst w'. unfold deleteConversation. simpl. rewrite Hd. simpl. rewrite Hok. simpl.
    destruct (is_selected _ _); reflexivity. }
  assert (Hconv : conversations (ui w') = updated).
  { rewrite Hw'. cbv zeta.
    destruct (is_selected _ _);
      cbn [ui with_ui requested conversations setMessages];
      apply delete_updater_conversations. }
  assert (Hselected : selectedConversationId (ui w') =
            if is_selected (selectedConversationId st) conversationId then
              match updated with
              | x :: _ => Some (Conversation.id x)
              | [] => None
              end
            else selectedConversationId st).
  { rewrite Hw'. cbv zeta.
    destruct (is_selected (selectedConversationId st) conversationId) eqn:Hs;
      cbn [ui with_ui requested selectedConversationId setMessages];
      rewrite delete_updater_selected, Hs; reflexivity. }
  split; [exact Hconv|]. split.
  { rewrite Hconv. subst updated. intros Hin. apply in_map_iff in Hin.
    destruct Hin as (c & Hc & Hin). apply filter_In in Hin. destruct Hin as [_ Hne].
    rewrite Hc, Z.eqb_refl in Hne. discriminate. }
  split.
  { rewrite Hw'. simpl. destruct (is_selected _ _); reflexivity. }
  split.
  - intros Hsel c rest Hup.
    assert (Hs : is_selected (selectedConversationId st) conversationId = true).
    { rewrite Hsel. simpl. apply Z.eqb_refl. }
    assert (Hnew : selectedConversationId (ui w') = Some (Conversation.id c)).
    { rewrite Hselected, Hs, Hup. reflexivity. }
    split; [exact Hnew|]. split.
    { rewrite Hw'. simpl. rewrite Hs. reflexivity. }
    rewrite Hnew. unfold selectionEffect, loadMessages, loadMessages_with.
    simpl.
    match goal with
    | |- context [exec net ?p ?w0] =>
        destruct (exec_requests_grow net p w0) as [more ->]
    end.
    simpl. rewrite <- app_assoc. eauto.
  - intros Hup Hwf. rewrite Hselected, Hup.
    destruct (is_selected (selectedConversationId st) conversationId) eqn:Hs;
      [reflexivity|].
    destruct Hwf as [Hsel | Hwf].
    + rewrite Hsel in Hs. simpl in Hs. rewrite Z.eqb_refl in Hs. discriminate.
    + unfold selection_in_list in Hwf.
      destruct (selectedConversationId st) as [sel|] eqn:Hsel; [|reflexivity].
      exfalso. apply in_map_iff in Hwf. destruct Hwf as (c & Hc & Hin).
      assert (Hc' : In c updated).
      { subst updated. apply filter_In. split; [exact Hin|].
        simpl in Hs. rewrite Hc. now rewrite Hs. }
      rewrite Hup in Hc'. destruct Hc'.
Qed.

(** The scenario of the two conversations: deleting the selected
    conversation 1 selects conversation 2 with an empty list, and the
    selection effect then fills the list with the messages of 2. *)
Example delete_selected_of_two :
  let w := Scenario.world Scenario.two_conversations in
  let w1 := snd (run Scenario.healthy
                   (deleteConversation (ui w) 1) w) in
  let w2 := snd (run Scenario.healthy
                   (selectionEffect true (selectedConversationId (ui w1))) w1) in
  List.map Conversation.id (conversations (ui w1)) = [2]
  /\ selectedConversationId (ui w1) = Some 2
  /\ messages (ui w1) = []
  /\ messages (ui w2) = Scenario.of_conversation_2.
Proof. repeat split. Qed.

(** ** [deleteConversation], the other cases *)

Lemma exec_deleteConversation_failed net rendered conversationId w :
  failed (on_delete net (length (requests w)) conversationId) = true ->
  exists entry,
    exec net (deleteConversation rendered conversationId) w =
    (Returned tt, logged entry (requested (DELETE_conversation conversationId) w)).
Proof.
  intros Hf. unfold deleteConversation.
  destruct (on_delete net _ _) as [|[[] st b]] eqn:E; try discriminate;
    cbn; rewrite E; cbn; eexists; reflexivity.
Qed.

(** X6.  When the DELETE is rejected or answered with a status that is
    not ok, [deleteConversation] returns normally and changes nothing in
    the state: no conversation is removed, the selection and the messages
    stay; it has sent the one request and logged one error. *)
Theorem deleteConversation_failure_changes_nothing net rendered conversationId w :
  failed (on_delete net (length (requests w)) conversationId) = true ->
  let result := exec net (deleteConversation rendered conversationId) w in
  fst result = Returned tt
  /\ ui (snd result) = ui w
  /\ requests (snd result) = requests w ++ [DELETE_conversation conversationId]
  /\ length (console (snd result)) = S (length (console w)).
Proof.
  intros Hf. cbv zeta.
  destruct (exec_deleteConversation_failed net rendered conversationId w Hf) as [entry ->].
  cbn. rewrite length_app. cbn. repeat split. lia.
Qed.

Lemma filter_absent conversationId (l : list Conversation.t) :
  ~ In conversationId (List.map Conversation.id l) ->
  List.filter (fun c => negb (Conversation.id c =? conversationId)) l = l.
Proof.
  induction l as [|x l IH]; simpl; [reflexivity|]. intros H.
  destruct (Conversation.id x =? conversationId) eqn:E.
  - apply Z.eqb_eq in E. tauto.
  - simpl. rewrite IH; tauto.
Qed.

(** X7.  Deleting a conversation that is not the selected one: the
    selection, the messages and the panel stay, the list loses the
    conversations with that id, and nothing at all changes when the list
    had none. *)
Theorem deleteConversation_of_another net conversationId w res :
  on_delete net (length (requests w)) conversationId = Resolved res ->
  ok res = true ->
  selectedConversationId (ui w) <> Some conversationId ->
  let w' := snd (exec net (deleteConversation (ui w) conversationId) w) in
  selectedConversationId (ui w') = selectedConversationId (ui w)
  /\ messages (ui w') = messages (ui w)
  /\ showChatPanel (ui w') = showChatPanel (ui w)
  /\ conversations (ui w') =
     List.filter (fun c => negb (Conversation.id c =? conversationId))
                 (conversations (ui w))
  /\ (~ In conversationId (List.map Conversation.id (conversations (ui w))) ->
      ui w' = ui w).
Proof.
  intros Hd Hok Hsel. cbv zeta.
  assert (Hs : is_selected (selectedConversationId (ui w)) conversationId = false).
  { destruct (selectedConversationId (ui w)) as [s|]; [|reflexivity]. simpl.
    apply Z.eqb_neq. congruence. }
  unfold deleteConversation. cbn. rewrite Hd. cbn. rewrite Hok. cbn.
  rewrite Hs. cbn. unfold delete_updater. rewrite Hs. cbn.
  repeat split.
  intros Habs. rewrite filter_absent by exact Habs. now destruct (ui w).
Qed.

Lemma exec_deleteConversation_ok net rendered conversationId w res :
  on_delete net (length (requests w)) conversationId = Resolved res ->
  ok res = true ->
  exec net (deleteConversation rendered conversationId) w =
  (Returned tt,
   let w1 := with_ui (delete_updater rendered conversationId)
               (requested (DELETE_conversation conversationId) w) in
   if is_selected (selectedConversationId rendered) conversationId
   then with_ui (setMessages (fun _ => [])) w1 else w1).
Proof.
  intros Hd Hok. unfold deleteConversation. simpl. rewrite Hd. simpl. rewrite Hok. simpl.
  destruct (is_selected _ _); reflexivity.
Qed.

(** X8.  [deleteConversation] keeps the selection inside the list:
    when the selected conversation was one of the listed ones (or none was
    selected), that is so after the call, whatever the backend answers. *)
Theorem deleteConversation_keeps_selection_listed net conversationId w :
  selection_in_list (ui w) ->
  selection_in_list (ui (snd (exec net (deleteConversation (ui w) conversationId) w))).
Proof.
  intros Hwf.
  destruct (failed (on_delete net (length (requests w)) conversationId)) eqn:Hf.
  - destruct (exec_deleteConversation_failed net (ui w) conversationId w Hf)
      as [entry ->]. exact Hwf.
  - destruct (on_delete net (length (requests w)) conversationId) as [|res] eqn:Hd;
      [discriminate|].
    apply negb_false_iff in Hf.
    rewrite (exec_deleteConversation_ok net (ui w) conversationId w res Hd Hf).
    cbv zeta. cbn [snd].
    assert (Hgoal : selection_in_list
              (delete_updater (ui w) conversationId (ui w))).
    { unfold selection_in_list in *.
      rewrite delete_updater_selected, delete_updater_conversations.
      destruct (is_selected (selectedConversationId (ui w)) conversationId) eqn:Hs.
      - destruct (List.filter _ (conversations (ui w))) as [|x rest]; [exact I|].
        simpl. now left.
      - destruct (selectedConversationId (ui w)) as [s|]; [|exact I].
        simpl in Hs. apply in_map_iff in Hwf. destruct Hwf as (x & Hx & Hin).
        apply in_map_iff. exists x. split; [exact Hx|].
        apply filter_In. split; [exact Hin|]. now rewrite Hx, Hs. }
    destruct (is_selected _ _); exact Hgoal.
Qed.

(** ** [createConversation] keeps the selection listed *)

(** X9.  [createConversation] keeps the selection inside the list,
    whatever the backend answers, the load of the new conversation's
    messages included. *)
Theorem createConversation_keeps_selection_listed window net w title :
  frames w = [] ->
  selection_in_list (ui w) ->
  selection_in_list (ui (snd (run net (createConversation window (ui w) title) w))).
Proof.
  intros Hf Hwf. unfold run.
  destruct (usable_customer (customerId (ui w))) as [customer|] eqn:Hc.
  - destruct (payload (on_create net (length (requests w)) customer
                         (trimmedTitle (ui w) title))) as [c|] eqn:Hp.
    + rewrite (createConversation_created window net w title customer c Hc Hp).
      set (w1 := with_ui (setShowChatPanel true) _).
      assert (Hf1 : frames w1 = []) by exact Hf.
      destruct (loadMessages_footprint window net (Conversation.id c) w1)
        as ((_ & _ & Hconv & Hsel & _) & _ & (fs & Hfs & Hall) & _).
      destruct (exec net (loadMessages window (Conversation.id c)) w1) as [r w2].
      cbn [snd] in *. rewrite Hf1 in Hfs. cbn in Hfs.
      destruct (frames_compose fs Hall) as [G HG].
      unfold next_frame, selection_in_list. cbn [ui frames]. rewrite Hfs, HG. cbn.
      rewrite Hsel, Hconv. cbn. now left.
    + destruct (createConversation_refused window net w title customer Hc Hp)
        as [entry ->].
      cbn. rewrite Hf. exact Hwf.
  - unfold createConversation. rewrite Hc. cbn. rewrite Hf. exact Hwf.
Qed.

Lemma createConversation_first_request window net rendered title customer w :
  usable_customer (customerId rendered) = Some customer ->
  exists more,
    requests (snd (exec net (createConversation window rendered title) w)) =
    requests w ++ POST_conversations customer (trimmedTitle rendered title) :: more.
Proof.
  intros Hc. unfold createConversation. rewrite Hc. simpl.
  match goal with
  | |- context [exec net ?p ?w0] =>
      destruct (exec_requests_grow net p w0) as [more ->]
  end.
  simpl. rewrite <- app_assoc. eauto.
Qed.

(** ** The dashboard page *)

(** X10.  [handleAddConversation]: a cancelled prompt does nothing; for
    an answered one with a customer, the title posted is the trimmed
    answer, or the default title when the answer is blank; it is never
    empty and has no white space at its ends, so [createConversation]
    posts it as it is. *)
Theorem handleAddConversation_posts_clean_title window net w answer :
  let result := exec net (Dashboard.handleAddConversation window (ui w) answer) w in
  (answer = None -> result = (Returned tt, w))
  /\ (forall input customer,
        answer = Some input ->
        usable_customer (customerId (ui w)) = Some customer ->
        let title :=
          or_else (trim input)
            (js "Conversation " ++ decimal (length (conversations (ui w)) + 1)) in
        (exists more,
           requests (snd result) = requests w ++ POST_conversations customer title :: more)
        /\ title <> [] /\ trim title = title).
Proof.
  cbv zeta. split.
  - intros ->. reflexivity.
  - intros input customer -> Hc.
    destruct (default_title_trimmed (length (conversations (ui w)) + 1)) as [Hdt Hdne].
    set (default_title := js "Conversation " ++ decimal (length (conversations (ui w)) + 1)) in *.
    assert (Htitle : or_else (trim input) default_title <> []
                     /\ trim (or_else (trim input) default_title)
                        = or_else (trim input) default_title).
    { unfold or_else. destruct (trim input) eqn:E; simpl.
      - split; assumption.
      - split; [discriminate|]. rewrite <- E. apply trim_idempotent. }
    destruct Htitle as [Hne Htrim].
    split; [|split; assumption].
    unfold Dashboard.handleAddConversation. fold default_title.
    rewrite exec_bind.
    assert (Hposted : trimmedTitle (ui w) (Some (or_else (trim input) default_title))
                      = or_else (trim input) default_title).
    { unfold trimmedTitle. rewrite Htrim. unfold or_else at 1.
      destruct (or_else (trim input) default_title); [contradiction | reflexivity]. }
    destruct (createConversation_first_request window net (ui w)
                (Some (or_else (trim input) default_title)) customer w Hc)
      as [more Hmore].
    rewrite Hposted in Hmore. exists more.
    destruct (exec net (createConversation window (ui w) _) w) as [[r|e] w2];
      exact Hmore.
Qed.

(** ** The selection and the loads in flight *)

Lemma visible_only_selected s :
  Forall (fun m => selectedConversationId s = Some (Message.conversation_id m))
         (visible_messages s).
Proof.
  unfold visible_messages. apply List.Forall_forall. intros m Hm.
  apply filter_In in Hm. destruct Hm as [_ Hm].
  unfold is_selected in Hm. destruct (selectedConversationId s); [|discriminate].
  apply Z.eqb_eq in Hm. now subst.
Qed.

Lemma filter_all_of c ms :
  all_of c ms ->
  List.filter (fun m => is_selected (Some c) (Message.conversation_id m)) ms = ms.
Proof.
  induction 1 as [|m ms Hc _ IH]; simpl; [reflexivity|].
  rewrite Hc, Z.eqb_refl. simpl in IH. now rewrite IH.
Qed.

Lemma visible_all_of s c :
  selectedConversationId s = Some c -> all_of c (messages s) ->
  visible_messages s = messages s.
Proof.
  intros Hs Hall. unfold visible_messages. rewrite Hs. now apply filter_all_of.
Qed.

Lemma step_select window v l :
  selectedConversationId (Loop.ui l) <> v ->
  Loop.step window (Loop.Select v) l =
  Loop.advance (selectionEffect window v)
    (Loop.mk (setSelectedConversationId v (Loop.ui l)) (Loop.suspended l)
       (Loop.frames l) (Loop.console l) (Loop.unhandled l)).
Proof. intros H. unfold Loop.step. now rewrite bool_decide_false. Qed.

(** After the switch from [a] to [b] both loads are suspended at their
    first fetch, the one for [a] first; an [ok] answer with a payload makes
    either of them set the message list to that payload. *)
Lemma switched window s a b :
  selectedConversationId s = None -> a <> b ->
  exists ka kb,
    Loop.steps window [Loop.Select (Some a); Loop.Select (Some b)] (Loop.idle s) =
    Loop.mk (setIsLoadingMessages true
               (setSelectedConversationId (Some b)
                  (setIsLoadingMessages true (setSelectedConversationId (Some a) s))))
            [FetchMessages a ka; FetchMessages b kb] [] [] []
    /\ (forall d st, ka (Resolved (mkResponse true st (Some d))) =
                    (smooth_update window (setMessages (fun _ => d));;
                     set_state (setIsLoadingMessages false)))
    /\ (forall d st, kb (Resolved (mkResponse true st (Some d))) =
                    (smooth_update window (setMessages (fun _ => d));;
                     set_state (setIsLoadingMessages false))).
Proof.
  intros Hs Hab. unfold Loop.steps. cbn [fold_left].
  rewrite (step_select window (Some a) (Loop.idle s))
    by (unfold Loop.idle; simpl; rewrite Hs; discriminate).
  unfold selectionEffect, loadMessages, loadMessages_with, loadMessages_attempt, finally.
  cbn [Loop.idle Loop.ui Loop.suspended Loop.frames Loop.console Loop.unhandled].
  cbn. rewrite bool_decide_false by congruence. cbn.
  do 2 eexists. split; [reflexivity|]. split; intros d st; destruct window; reflexivity.
Qed.

(** A call that runs alone in the event loop goes through the states [exec]
    gives it. *)
Lemma alone_agrees window net (p : Async unit) w l :
  Loop.ui l = ui w -> Loop.frames l = frames w -> Loop.suspended l = [] ->
  let l' := Loop.steps window (Loop.alone net p w) (Loop.advance p l) in
  Loop.ui l' = ui (snd (exec net p w))
  /\ Loop.frames l' = frames (snd (exec net p w))
  /\ Loop.suspended l' = [].
Proof.
  revert w l. induction p; intros w l Hui Hfr Hsus; cbn [Loop.alone exec Loop.advance].
  - cbn. auto.
  - cbn. auto.
  - apply IHp; cbn; congruence.
  - apply IHp; cbn; congruence.
  - unfold Loop.steps. cbn [fold_left Loop.step Loop.suspended]. rewrite Hsus. cbn.
    apply IHp; cbn; congruence.
  - apply IHp; cbn; congruence.
  - unfold Loop.steps. cbn [fold_left Loop.step Loop.suspended]. rewrite Hsus. cbn.
    apply H; cbn; congruence.
  - unfold Loop.steps. cbn [fold_left Loop.step Loop.suspended]. rewrite Hsus. cbn.
    apply H; cbn; congruence.
  - unfold Loop.steps. cbn [fold_left Loop.step Loop.suspended]. rewrite Hsus. cbn.
    apply H; cbn; congruence.
  - unfold Loop.steps. cbn [fold_left Loop.step Loop.suspended]. rewrite Hsus. cbn.
    apply H; cbn; congruence.
Qed.

(** So [run] is the event loop with one call in it, answered by the
    scripted backend, and a frame at the end. *)
Corollary run_is_alone window net (p : Async unit) w :
  frames w = [] ->
  Loop.ui (Loop.steps window (Loop.Call p :: Loop.alone net p w ++ [Loop.Frame])
             (Loop.idle (ui w)))
  = ui (snd (run net p w)).
Proof.
  intros Hf. unfold Loop.steps. cbn [fold_left Loop.step]. rewrite fold_left_app.
  destruct (alone_agrees window net p w (Loop.idle (ui w)) eq_refl (eq_sym Hf) eq_refl)
    as (Hui & Hfr & _).
  unfold Loop.steps in Hui, Hfr. cbn [fold_left Loop.step Loop.ui].
  rewrite Hui, Hfr. unfold run.
  destruct (exec net p w) as [r w']. reflexivity.
Qed.

(** The answer for the deselected conversation 1 arrives after the one for
    the selected conversation 2: it is applied, and the panel, which shows
    the messages of conversation 2 only, shows none. *)
Lemma stale_answer_is_applied :
  let final := Loop.steps true Scenario.stale_answer_last
                 (Loop.idle Scenario.nothing_selected) in
  selectedConversationId (Loop.ui final) = Some 2
  /\ messages (Loop.ui final) = Scenario.of_conversation_1
  /\ visible_messages (Loop.ui final) = []
  /\ visible_messages (Loop.ui final) <> Scenario.of_conversation_2.
Proof. repeat split; try reflexivity. discriminate. Qed.

(** C3, as the code has it.  The selection is switched from [a] to [b]
    while the load for [a] is in flight, and both loads are answered.  The
    answers are applied in the order they arrive.  When the answer for [a]
    comes first, the list ends as the data of [b], and that is what the
    panel shows.  When it comes last, the list ends as the data of [a]; the
    panel shows only messages of conversation [b] even then. *)
Theorem late_answer_last_write_wins window s a b da db :
  selectedConversationId s = None -> a <> b -> all_of b db ->
  let answer d := Loop.Messages (Resolved (mkResponse true 200 (Some d))) in
  let switch := [Loop.Select (Some a); Loop.Select (Some b)] in
  let stale_first :=
    Loop.steps window
      (switch ++ [Loop.Arrive 0 (answer da); Loop.Frame;
                  Loop.Arrive 0 (answer db); Loop.Frame]) (Loop.idle s) in
  let stale_last :=
    Loop.steps window
      (switch ++ [Loop.Arrive 1 (answer db); Loop.Frame;
                  Loop.Arrive 0 (answer da); Loop.Frame]) (Loop.idle s) in
  (selectedConversationId (Loop.ui stale_first) = Some b
   /\ messages (Loop.ui stale_first) = db
   /\ visible_messages (Loop.ui stale_first) = db)
  /\ (selectedConversationId (Loop.ui stale_last) = Some b
      /\ messages (Loop.ui stale_last) = da
      /\ Forall (fun m => Message.conversation_id m = b)
                (visible_messages (Loop.ui stale_last))).
Proof.
  intros Hs Hab Hdb answer switch stale_first stale_last.
  destruct (switched window s a b Hs Hab) as (ka & kb & Hsw & Hka & Hkb).
  assert (Hfirst : selectedConversationId (Loop.ui stale_first) = Some b
                   /\ messages (Loop.ui stale_first) = db).
  { subst stale_first switch answer. unfold Loop.steps in *.
    rewrite fold_left_app, Hsw.
    cbn. rewrite Hka. destruct window; cbn; rewrite Hkb; cbn; auto. }
  assert (Hlast : selectedConversationId (Loop.ui stale_last) = Some b
                   /\ messages (Loop.ui stale_last) = da).
  { subst stale_last switch answer. unfold Loop.steps in *.
    rewrite fold_left_app, Hsw.
    cbn. rewrite Hkb. destruct window; cbn; rewrite Hka; cbn; auto. }
  destruct Hfirst as [Hf1 Hf2]. destruct Hlast as [Hl1 Hl2].
  split; [split; [exact Hf1 | split; [exact Hf2 |]]
         | split; [exact Hl1 | split; [exact Hl2 |]]].
  - rewrite <- Hf2 in Hdb |- *. apply (visible_all_of _ b); assumption.
  - eapply List.Forall_impl; [|apply visible_only_selected].
    intros m Hm. cbv beta in Hm. rewrite Hl1 in Hm. congruence.
Qed.

(** ** The typing animation *)

Section TypingAnimation.
Import ChatPanel.

Lemma cleanup_typing p : typingMessage (cleanup p) = typingMessage p.
Proof. unfold cleanup. destruct (typingTimeoutRef p); reflexivity. Qed.

Lemma cleanup_messages p : messages (cleanup p) = messages p.
Proof. unfold cleanup. destruct (typingTimeoutRef p); reflexivity. Qed.

Lemma cleanup_clears p h tm :
  typingTimeoutRef p = Some h -> In tm (timers (cleanup p)) -> handle tm <> h.
Proof.
  intros Hh Hin. unfold cleanup in Hin. rewrite Hh in Hin. simpl in Hin.
  apply filter_In in Hin. destruct Hin as [_ Hne].
  apply negb_true_iff, Pos.eqb_neq in Hne. exact Hne.
Qed.

Lemma startTyping_guard tm p :
  typingMessage (startTyping (Some tm) p) = typingMessage p
  /\ timers (startTyping (Some tm) p) = timers p
  /\ messages (startTyping (Some tm) p) = messages p.
Proof.
  unfold startTyping.
  destruct (_ || _); [destruct (lastAgentMessage _)|]; auto.
Qed.

Lemma animate_typing r p : typingMessage (animate r p) = typingMessage p.
Proof.
  unfold animate. destruct r as [tm|]; [|reflexivity].
  destruct (_ <? _)%nat; reflexivity.
Qed.

Lemma animate_messages r p : messages (animate r p) = messages p.
Proof.
  unfold animate. destruct r as [tm|]; [|reflexivity].
  destruct (_ <? _)%nat; reflexivity.
Qed.

Lemma startTyping_messages r p : messages (startTyping r p) = messages p.
Proof.
  unfold startTyping.
  destruct (_ || _); [destruct (lastAgentMessage _), r|]; try reflexivity.
  destruct (bool_decide _); reflexivity.
Qed.

Lemma commit_both_messages p : messages (commit_both p) = messages p.
Proof.
  unfold commit_both.
  now rewrite animate_messages, startTyping_messages, !cleanup_messages.
Qed.

Lemma typing_changed_messages p : messages (typing_changed p) = messages p.
Proof.
  unfold typing_changed.
  destruct (typingMessage p), (typingMessage (commit_both p));
    now rewrite ?commit_both_messages.
Qed.

(** The panel never touches the messages it is given. *)
Lemma step_messages e p :
  messages (step e p) = match e with Props ms _ => ms | Fired _ => messages p end.
Proof.
  destruct e as [ms sending | h]; unfold step.
  - transitivity (messages (startTyping (typingMessage p)
                              (cleanup (with_props ms sending p)))).
    + generalize (startTyping (typingMessage p) (cleanup (with_props ms sending p))).
      intros p1. destruct (typingMessage p), (typingMessage p1);
        now rewrite ?typing_changed_messages.
    + now rewrite startTyping_messages, cleanup_messages.
  - destruct (List.find _ _); [|reflexivity].
    now rewrite typing_changed_messages.
Qed.

(** What a timer of the animation reveals is a prefix of the full text. *)
Lemma animate_reveals_prefix tm p t :
  In t (timers (animate (Some tm) p)) ->
  In t (timers p)
  \/ callback t = None
  \/ exists n, callback t = Some (mkTyping (id tm) (fullText tm) (firstn n (fullText tm))).
Proof.
  unfold animate. destruct (_ <? _)%nat; simpl; intros Hin;
    apply in_app_or in Hin; destruct Hin as [Hin | [<- | []]]; simpl; eauto.
Qed.

Lemma startTyping_starts p m :
  typingMessage p = None -> isSending p = false ->
  lastAgentMessage (messages p) = Some m ->
  Message.id m ∉ processedMessageIdsRef p ->
  typingMessage (startTyping None p) = Some (mkTyping (Message.id m) (Message.text m) []).
Proof.
  intros Ht Hs Hm Hp. unfold startTyping. rewrite Hs, Hm.
  rewrite orb_true_r. rewrite bool_decide_false by exact Hp. reflexivity.
Qed.

(** Agent message 104 arrives while message 102 is being typed: the timer
    of the animation is cleared, and the panel goes on showing the
    animation of 102; none starts for 104. *)
Lemma newer_message_does_not_restart_typing :
  let p := step Scenario.arrival_104 Scenario.typing_102 in
  (Message.id <$> lastAgentMessage (messages p)) = Some 104
  /\ (id <$> typingMessage Scenario.typing_102) = Some 102
  /\ (id <$> typingMessage p) = Some 102
  /\ (id <$> typingMessage p) <> Some 104
  /\ timers p = [].
Proof. repeat split; try reflexivity. discriminate. Qed.

(** The arrival of new messages clears the timer the panel holds. *)
Lemma arrival_clears_timer p ms sending h t :
  typingTimeoutRef p = Some h ->
  typingMessage p <> None ->
  In t (timers (step (Props ms sending) p)) -> handle t <> h.
Proof.
  intros Hh Htm.
  destruct (typingMessage p) as [tm|] eqn:E; [|contradiction].
  unfold step. rewrite E.
  destruct (startTyping_guard tm (cleanup (with_props ms sending p))) as (_ & H2 & _).
  rewrite H2. intros Ht.
  eapply (cleanup_clears (with_props ms sending p)); eauto.
Qed.

(** C8, as the code has it.  When new messages arrive while an animation
    is running, [typingMessage] stays what it was: the animation is not
    given up for the newer message, and none starts for it, since the first
    effect starts an animation only when there is none.  The panel never
    changes the messages it is given, neither at an arrival nor when a
    timer fires. *)
Theorem arrival_keeps_running_animation p ms sending tm :
  typingMessage p = Some tm ->
  let p' := step (Props ms sending) p in
  typingMessage p' = Some tm
  /\ messages p' = ms
  /\ (forall h, messages (step (Fired h) p) = messages p).
Proof.
  intros Htm p'. subst p'. unfold step. rewrite Htm.
  destruct (startTyping_guard tm (cleanup (with_props ms sending p))) as (H1 & _ & H3).
  rewrite cleanup_typing in H1. cbn [with_props typingMessage] in H1.
  rewrite H1, Htm.
  split; [reflexivity|]. split.
  - rewrite H3, cleanup_messages. reflexivity.
  - intros h. apply (step_messages (Fired h)).
Qed.

(** Without a running animation the newest agent message, when it has not
    been animated before, starts its animation at once. *)
Lemma idle_panel_starts_animation p ms m :
  typingMessage p = None ->
  lastAgentMessage ms = Some m ->
  Message.id m ∉ processedMessageIdsRef p ->
  typingMessage (step (Props ms false) p) =
  Some (mkTyping (Message.id m) (Message.text m) []).
Proof.
  intros Ht Hm Hp. unfold step. rewrite Ht.
  set (p0 := cleanup (with_props ms false p)).
  assert (H0 : typingMessage (startTyping None p0) =
               Some (mkTyping (Message.id m) (Message.text m) [])).
  { apply startTyping_starts; subst p0.
    - now rewrite cleanup_typing.
    - unfold cleanup. destruct (typingTimeoutRef _); reflexivity.
    - now rewrite cleanup_messages.
    - unfold cleanup. destruct (typingTimeoutRef _); exact Hp. }
  rewrite H0. unfold typing_changed. rewrite H0.
  assert (H1 : typingMessage (commit_both (startTyping None p0)) =
               Some (mkTyping (Message.id m) (Message.text m) [])).
  { unfold commit_both. rewrite animate_typing, H0.
    destruct (startTyping_guard (mkTyping (Message.id m) (Message.text m) [])
                (cleanup (cleanup (startTyping None p0)))) as (-> & _).
    now rewrite !cleanup_typing. }
  now rewrite H1.
Qed.
Lemma cleanup_well_formed p : well_formed p -> well_formed (cleanup p).
Proof.
  intros [H1 H2]. unfold cleanup. destruct (typingTimeoutRef p); [|now split].
  split; [exact H1|]. cbn. apply List.Forall_forall. intros t Ht.
  apply filter_In in Ht. destruct Ht as [Ht _].
  revert t Ht. now apply List.Forall_forall.
Qed.

Lemma startTyping_well_formed r p : well_formed p -> well_formed (startTyping r p).
Proof.
  intros [H1 H2]. unfold startTyping.
  destruct (_ || _); [destruct (lastAgentMessage _), r|]; try (now split).
  destruct (bool_decide _); [now split|].
  split; [exists 0%nat; reflexivity | exact H2].
Qed.

Lemma animate_well_formed r p : well_formed p -> well_formed (animate r p).
Proof.
  intros [H1 H2]. unfold animate. destruct r as [tm|]; [|now split].
  destruct (_ <? _)%nat; (split; [exact H1|]); cbn;
    apply Forall_app; (split; [exact H2|]); repeat constructor; cbn; eauto.
Qed.

Lemma typing_changed_well_formed p : well_formed p -> well_formed (typing_changed p).
Proof.
  assert (Hc : forall q, well_formed q -> well_formed (commit_both q)).
  { intros q Hq. unfold commit_both.
    now apply animate_well_formed, startTyping_well_formed,
      cleanup_well_formed, cleanup_well_formed. }
  intros Hp. unfold typing_changed.
  destruct (typingMessage p), (typingMessage (commit_both p)); auto.
Qed.

(** Every step of the panel keeps the shown text a prefix of the full
    text: the animation changes how much of a message is rendered and
    nothing else. *)
Lemma step_well_formed e p : well_formed p -> well_formed (step e p).
Proof.
  intros Hp. destruct e as [ms sending | h]; unfold step.
  - assert (H1 : well_formed (startTyping (typingMessage p)
                                (cleanup (with_props ms sending p)))).
    { apply startTyping_well_formed, cleanup_well_formed. exact Hp. }
    revert H1. generalize (startTyping (typingMessage p) (cleanup (with_props ms sending p))).
    intros p1 H1.
    destruct (typingMessage p), (typingMessage p1); auto using typing_changed_well_formed.
  - destruct (List.find _ _) as [t|] eqn:E; [|exact Hp].
    apply typing_changed_well_formed. destruct Hp as [H1 H2].
    apply find_some in E. destruct E as [Hin _].
    split; cbn.
    + revert t Hin. now apply List.Forall_forall.
    + apply List.Forall_forall. intros t' Ht'. apply filter_In in Ht'.
      destruct Ht' as [Ht' _]. revert t' Ht'. now apply List.Forall_forall.
Qed.

Lemma mounted_well_formed : well_formed mounted.
Proof. split; [exact I | constructor]. Qed.

(** A message that is not being typed is shown in full, and of the one
    being typed a prefix is shown. *)
Lemma displayText_other p m :
  (forall tm, typingMessage p = Some tm -> id tm <> Message.id m) ->
  displayText p m = Message.text m.
Proof.
  intros H. unfold displayText. destruct (typingMessage p) as [tm|]; [|reflexivity].
  destruct (id tm =? Message.id m) eqn:E; [|reflexivity].
  apply Z.eqb_eq in E. now destruct (H tm eq_refl).
Qed.

Lemma displayText_prefix p m tm :
  well_formed p ->
  typingMessage p = Some tm -> fullText tm = Message.text m ->
  exists n, displayText p m = firstn n (Message.text m).
Proof.
  intros [Hp _] Htm Hfull. unfold displayText. rewrite Htm in *.
  destruct (id tm =? Message.id m).
  - rewrite <- Hfull. exact Hp.
  - exists (length (Message.text m)). now rewrite firstn_all.
Qed.

End TypingAnimation.

(** ** File selection *)

Section FileSelection.
Import ChatPanel.

Lemma isValidType_iff f :
  isValidType f = true <->
  In (File.type f) SUPPORTED_FILE_TYPES
  \/ exists ext pre, In ext [js ".docx"; js ".doc"; js ".txt"; js ".md"] /\ File.name f = pre ++ ext.
Proof.
  unfold isValidType. rewrite !orb_true_iff, !endsWith_suffix, existsb_exists.
  split.
  - intros [[[[(t & Hin & Ht) | [pre H]] | [pre H]] | [pre H]] | [pre H]].
    + apply jsstring_eqb_eq in Ht. subst t. now left.
    + right. exists (js ".docx"), pre. split; [simpl; tauto | exact H].
    + right. exists (js ".doc"), pre. split; [simpl; tauto | exact H].
    + right. exists (js ".txt"), pre. split; [simpl; tauto | exact H].
    + right. exists (js ".md"), pre. split; [simpl; tauto | exact H].
  - intros [Hin | (ext & pre & Hext & H)].
    + do 4 left. exists (File.type f). split; [exact Hin | now apply jsstring_eqb_eq].
    + simpl in Hext. destruct Hext as [<- | [<- | [<- | [<- | []]]]]; eauto 8.
Qed.

Lemma rejection_None f :
  rejection f = None <-> isValidType f = true /\ File.size f <= MAX_FILE_SIZE.
Proof.
  unfold rejection. destruct (isValidType f); simpl.
  - destruct (File.size f >? MAX_FILE_SIZE) eqn:E.
    + split; [discriminate|]. intros [_ H]. apply Z.gtb_lt in E. lia.
    + split; [|reflexivity]. intros _. split; [reflexivity|].
      rewrite Z.gtb_ltb in E. apply Z.ltb_ge in E. exact E.
  - split; [discriminate | intros [H _]; discriminate].
Qed.

Lemma rejection_names_file f e :
  rejection f = Some e -> exists reason, e = File.name f ++ reason.
Proof.
  unfold rejection. destruct (negb _); [|destruct (_ >? _)]; intros H;
    try discriminate; injection H as <-; eauto.
Qed.

Lemma forEach_file_result fileId files :
  forall i newFiles errs,
  exists added,
    forEach_file fileId i files newFiles errs =
      (newFiles ++ added, errs ++ omap rejection files)
    /\ List.map file added =
       List.filter (fun f => bool_decide (rejection f = None)) files
    /\ Forall (fun u => preview u = None) added.
Proof.
  induction files as [|f files IH]; intros i newFiles errs; simpl.
  - exists []. now rewrite !app_nil_r.
  - destruct (rejection f) as [e|] eqn:E; simpl.
    + destruct (IH (S i) newFiles (errs ++ [e])) as (added & -> & Hmap & Hprev).
      exists added. rewrite <- app_assoc. auto.
    + destruct (IH (S i) (newFiles ++ [mkUploadedFile (fileId i) f None]) errs)
        as (added & -> & Hmap & Hprev).
      exists (mkUploadedFile (fileId i) f None :: added).
      rewrite <- app_assoc. simpl. rewrite Hmap. auto.
Qed.

(** C10.  [handleFileSelect] appends to the upload list exactly the
    selected files that pass both checks, in their order, and pushes one
    error, which starts with the name of the file, for each of the others.
    A file passes when its size is at most 10 * 1024 * 1024 bytes and its
    MIME type is one of the supported types or its name ends in [.docx],
    [.doc], [.txt] or [.md]. *)
Theorem handleFileSelect_validates fileId files prev :
  let chosen := default [] files in
  let r := handleFileSelect fileId files prev in
  (exists added,
     uploadedFiles r = prev ++ added
     /\ List.map file added =
        List.filter (fun f => bool_decide (rejection f = None)) chosen)
  /\ errors r = omap rejection chosen
  /\ (forall f, rejection f = None <->
         (In (File.type f) SUPPORTED_FILE_TYPES
          \/ exists ext pre, In ext [js ".docx"; js ".doc"; js ".txt"; js ".md"] /\ File.name f = pre ++ ext)
         /\ File.size f <= 10 * 1024 * 1024)
  /\ (forall f e, rejection f = Some e -> exists reason, e = File.name f ++ reason).
Proof.
  intros chosen r. split; [|split; [|split]].
  - subst r chosen. unfold handleFileSelect.
    destruct files as [[|f fs]|]; simpl default;
      try (exists []; now rewrite app_nil_r).
    destruct (forEach_file_result fileId (f :: fs) 0%nat [] []) as (added & E & Hmap & _).
    rewrite E. simpl app. cbn [uploadedFiles]. exists added. split; [|exact Hmap].
    destruct added; [now rewrite app_nil_r | reflexivity].
  - subst r chosen. unfold handleFileSelect.
    destruct files as [[|f fs]|]; simpl default; try reflexivity.
    destruct (forEach_file_result fileId (f :: fs) 0%nat [] []) as (added & E & _).
    rewrite E. reflexivity.
  - intros f. rewrite rejection_None, isValidType_iff. reflexivity.
  - apply rejection_names_file.
Qed.
(** Of four selected files, the executable and the oversized one are
    rejected. *)
Example select_four_files :
  let r := ChatPanel.handleFileSelect decimal (Some Scenario.selected_files) [] in
  List.map (fun u => File.name (ChatPanel.file u)) (ChatPanel.uploadedFiles r)
  = [js "resume.pdf"; js "notes.md"]
  /\ length (ChatPanel.errors r) = 2%nat.
Proof. repeat split. Qed.

End FileSelection.

(** ** The composer, the upload list and the layout *)

Lemma messageText_not_blank input ups :
  falsy (trim input) && match ups with [] => true | _ => false end = false ->
  trim (ChatPanel.messageText (trim input) ups) <> [].
Proof.
  intros Hg. unfold ChatPanel.messageText.
  destruct (trim_ends input) as [E | (a & b & mid & Hshape & Ha & _)].
  - rewrite E in *. destruct ups as [|u ups]; [discriminate|]. simpl falsy. cbv iota.
    change (js "Uploaded " ++ ?x) with (85%N :: (js "ploaded " ++ x)).
    now apply trim_head_kept.
  - assert (Hhead : exists rest, trim input = a :: rest).
    { destruct Hshape as [[-> _] | ->]; eauto. }
    destruct Hhead as [rest Hrest]. rewrite Hrest.
    destruct ups as [|u ups]; simpl; now apply trim_head_kept.
Qed.

(** X11.  With a conversation and something to send, [handleSubmit]
    empties the composer and calls [sendMessage] with a text that is not
    blank and without files, so the call passes the guard of
    [sendMessage]. *)
Theorem handleSubmit_sends_text window now conv form :
  falsy (trim (ChatPanel.input form))
  && match ChatPanel.uploaded form with [] => true | _ => false end = false ->
  exists text,
    ChatPanel.handleSubmit window now (Some conv) form =
    (ChatPanel.mkComposer [] [], sendMessage window now (Conversation.id conv) text None)
    /\ trim text <> []
    /\ falsy (trim text) && no_files None = false.
Proof.
  intros Hg. exists (ChatPanel.messageText (trim (ChatPanel.input form)) (ChatPanel.uploaded form)).
  pose proof (messageText_not_blank _ _ Hg) as Hne.
  split; [|split; [exact Hne|]].
  - unfold ChatPanel.handleSubmit. now rewrite Hg.
  - destruct (trim (ChatPanel.messageText _ _)); [contradiction | reflexivity].
Qed.

(** X12.  Nothing to send: without a conversation, or with an input of
    white space only and no file, the composer stays as it is, the white
    space included, and the call does nothing. *)
Theorem handleSubmit_nothing_to_send window net now conversation form w :
  conversation = None
  \/ (blank (ChatPanel.input form) /\ ChatPanel.uploaded form = []) ->
  let '(form', call) := ChatPanel.handleSubmit window now conversation form in
  form' = form /\ exec net call w = (Returned tt, w).
Proof.
  unfold ChatPanel.handleSubmit. intros [-> | [Ht Hu]]; [now split|].
  apply trim_nil in Ht. rewrite Ht, Hu. now destruct conversation.
Qed.

(** X13.  A submit that the backend confirms with messages adds them at
    the end of the list and nothing else: the placeholder is gone, with
    or without attachments, because the panel never passes files to
    [sendMessage] and never sends a blank text. *)
Theorem handleSubmit_confirmed window net now conv form w m ms :
  falsy (trim (ChatPanel.input form))
  && match ChatPanel.uploaded form with [] => true | _ => false end = false ->
  frames w = [] ->
  let text := ChatPanel.messageText (trim (ChatPanel.input form)) (ChatPanel.uploaded form) in
  Forall (fun x => ~ is_placeholder text x) (messages (ui w)) ->
  payload (on_chat net (length (requests w)) (Conversation.id conv) text None)
  = Some (mkSendReply (Some (m :: ms))) ->
  let '(form', call) := ChatPanel.handleSubmit window now (Some conv) form in
  form' = ChatPanel.mkComposer [] []
  /\ messages (ui (snd (run net call w))) = messages (ui w) ++ m :: ms.
Proof.
  intros Hg Hf text Hnone Hp.
  pose proof (messageText_not_blank _ _ Hg) as Hne. fold text in Hne.
  unfold ChatPanel.handleSubmit. rewrite Hg. fold text.
  split; [reflexivity|].
  apply sendMessage_confirmed_appends; assumption.
Qed.


Lemma jsstring_eqb_refl s : jsstring_eqb s s = true.
Proof. now apply jsstring_eqb_eq. Qed.

(** X15.  Every file that passes the type check of [handleFileSelect]
    gets a label of its own from [getFileTypeLabel], never the fallback
    [FILE]. *)
Theorem valid_type_has_label f :
  ChatPanel.isValidType f = true -> ChatPanel.getFileTypeLabel f <> js "FILE".
Proof.
  intros H. unfold ChatPanel.getFileTypeLabel.
  destruct (jsstring_eqb (File.type f) (js "application/pdf")) eqn:E1;
    [intros E; vm_compute in E; discriminate|].
  destruct (_ || endsWith (File.name f) (js ".docx")) eqn:E2;
    [intros E; vm_compute in E; discriminate|].
  destruct (_ || endsWith (File.name f) (js ".doc")) eqn:E3;
    [intros E; vm_compute in E; discriminate|].
  destruct (_ || endsWith (File.name f) (js ".txt")) eqn:E4;
    [intros E; vm_compute in E; discriminate|].
  destruct (_ || endsWith (File.name f) (js ".md")) eqn:E5;
    [intros E; vm_compute in E; discriminate|].
  destruct (ChatPanel.startsWith (File.type f) (js "image/")) eqn:E6;
    [intros E; vm_compute in E; discriminate|].
  exfalso.
  apply orb_false_elim in E2, E3, E4, E5.
  destruct E2 as [T2 N2], E3 as [T3 N3], E4 as [T4 N4], E5 as [T5 N5].
  unfold ChatPanel.isValidType in H. rewrite N2, N3, N4, N5, !orb_false_r in H.
  apply existsb_exists in H. destruct H as (t & Hin & Ht).
  apply jsstring_eqb_eq in Ht. subst t.
  simpl in Hin.
  repeat (destruct Hin as [Hin | Hin];
          [ rewrite <- Hin in *;
            first [ rewrite jsstring_eqb_refl in E1; discriminate
                  | rewrite jsstring_eqb_refl in T2; discriminate
                  | rewrite jsstring_eqb_refl in T3; discriminate
                  | rewrite jsstring_eqb_refl in T4; discriminate
                  | rewrite jsstring_eqb_refl in T5; discriminate
                  | vm_compute in E6; discriminate ] | ]).
  destruct Hin.
Qed.

(** X16.  Removing the file that a selection has just added gives back
    the upload list as it was, when the id of the new file is not the id
    of a file already there. *)
Theorem remove_selected_file fileId f prev :
  ChatPanel.rejection f = None ->
  Forall (fun u => ChatPanel.uid u <> fileId 0%nat) prev ->
  ChatPanel.handleRemoveFile (fileId 0%nat)
    (ChatPanel.uploadedFiles (ChatPanel.handleFileSelect fileId (Some [f]) prev)) = prev.
Proof.
  intros Hok Hfresh. unfold ChatPanel.handleFileSelect, ChatPanel.handleRemoveFile. simpl. rewrite Hok. simpl.
  rewrite List.filter_app. simpl. rewrite jsstring_eqb_refl. simpl. rewrite app_nil_r.
  induction Hfresh as [|u prev Hu _ IH]; simpl; [reflexivity|].
  destruct (jsstring_eqb (ChatPanel.uid u) (fileId 0%nat)) eqn:E.
  - apply jsstring_eqb_eq in E. contradiction.
  - simpl. now rewrite IH.
Qed.


(** X17.  The two props that the layout hands the panel agree: the
    conversation is a listed one and the selected one, and the messages
    all belong to it. *)
Theorem panel_props_agree s c :
  panel_conversation s = Some c ->
  selectedConversationId s = Some (Conversation.id c)
  /\ In c (conversations s)
  /\ Forall (fun m => Message.conversation_id m = Conversation.id c) (visible_messages s).
Proof.
  intros H. unfold panel_conversation in H. apply find_some in H. destruct H as [Hin Hsel].
  unfold is_selected in Hsel. destruct (selectedConversationId s) as [i|] eqn:E; [|discriminate].
  apply Z.eqb_eq in Hsel. subst i.
  split; [reflexivity|]. split; [exact Hin|].
  eapply List.Forall_impl; [|apply visible_only_selected].
  intros m Hm. cbv beta in Hm. congruence.
Qed.

(** X18.  The layout hands the panel a conversation exactly when the
    selection is one of the listed conversations; otherwise the panel
    gets [null]. *)
Theorem panel_conversation_present s :
  (exists c, panel_conversation s = Some c) <->
  (exists i, selectedConversationId s = Some i
             /\ In i (List.map Conversation.id (conversations s))).
Proof.
  split.
  - intros [c H]. unfold panel_conversation in H. apply find_some in H.
    destruct H as [Hin Hsel]. unfold is_selected in Hsel.
    destruct (selectedConversationId s) as [i|]; [|discriminate].
    apply Z.eqb_eq in Hsel. subst i. exists (Conversation.id c).
    split; [reflexivity | now apply in_map].
  - intros (i & Hsel & Hin). apply in_map_iff in Hin. destruct Hin as (c & Hc & Hin).
    unfold panel_conversation.
    destruct (List.find _ (conversations s)) as [c'|] eqn:E; [eauto|].
    exfalso. apply (find_none _ _ E) in Hin. rewrite Hsel in Hin. simpl in Hin.
    rewrite Hc, Z.eqb_refl in Hin. discriminate.
Qed.

(** ** The newest agent message *)

Section Newest.
Let newer (a b : Message.t) : Z := Message.id b - Message.id a.
Let before (a b : Message.t) : Prop := Message.id b <= Message.id a.

Lemma insert_by_In x y l : In y (insert_by newer x l) <-> y = x \/ In y l.
Proof.
  induction l as [|z l IH]; simpl.
  - intuition.
  - destruct (newer x z <=? 0); simpl; [intuition | rewrite IH; intuition].
Qed.

Lemma sort_by_In y l : In y (sort_by newer l) <-> In y l.
Proof.
  induction l as [|x l IH]; simpl; [reflexivity|].
  rewrite insert_by_In, IH. intuition.
Qed.

Lemma insert_by_sorted x l :
  Sorted.StronglySorted before l -> Sorted.StronglySorted before (insert_by newer x l).
Proof.
  induction 1 as [|z l Hs IH Hz]; simpl.
  - repeat constructor.
  - destruct (newer x z <=? 0) eqn:E.
    + apply Z.leb_le in E. unfold newer in E.
      constructor; [now constructor|].
      constructor; [unfold before; lia|].
      eapply List.Forall_impl; [|exact Hz]. unfold before. intros; lia.
    + apply Z.leb_gt in E. unfold newer in E.
      constructor; [exact IH|].
      apply List.Forall_forall. intros y Hy. apply insert_by_In in Hy.
      destruct Hy as [-> | Hy]; [unfold before; lia|].
      revert y Hy. now apply List.Forall_forall.
Qed.

Lemma sort_by_sorted l : Sorted.StronglySorted before (sort_by newer l).
Proof.
  induction l; simpl; [constructor | now apply insert_by_sorted].
Qed.

(** X19.  The message the typing effect looks at is an agent message of
    the list whose id no other agent message of the list exceeds, and
    there is one whenever the list has an agent message. *)
Theorem lastAgentMessage_is_newest ms :
  match ChatPanel.lastAgentMessage ms with
  | Some m =>
      In m ms /\ Message.author m = agent
      /\ forall m', In m' ms -> Message.author m' = agent ->
                    Message.id m' <= Message.id m
  | None => forall m', In m' ms -> Message.author m' <> agent
  end.
Proof.
  unfold ChatPanel.lastAgentMessage. fold newer.
  set (agents := List.filter (fun m => bool_decide (Message.author m = agent)) ms).
  assert (Hagents : forall m, In m agents <-> In m ms /\ Message.author m = agent).
  { intros m. subst agents. rewrite filter_In, bool_decide_eq_true. reflexivity. }
  pose proof (sort_by_sorted agents) as Hs.
  pose proof (fun y => sort_by_In y agents) as Hin.
  destruct (sort_by newer agents) as [|m rest]; simpl.
  - intros m' Hm' Ha. apply (Hin m'), Hagents. auto.
  - assert (Hm : In m agents) by (apply Hin; now left).
    apply Hagents in Hm. destruct Hm as [Hm Ha]. split; [exact Hm|]. split; [exact Ha|].
    intros m' Hm' Ha'.
    assert (H' : In m' (m :: rest)) by (apply Hin, Hagents; auto).
    destruct H' as [<- | H']; [lia|].
    inversion Hs as [|? ? _ Hall]; subst.
    apply (proj1 (List.Forall_forall _ _) Hall m' H').
Qed.
End Newest.

(** ** Runs of the typing animation *)

Section TypingProgress.
Import ChatPanel.

Lemma startTyping_timers r p : timers (startTyping r p) = timers p.
Proof.
  unfold startTyping.
  destruct (_ || _); [destruct (lastAgentMessage _), r|]; try reflexivity.
  destruct (bool_decide _); reflexivity.
Qed.

Lemma startTyping_ref r p : typingTimeoutRef (startTyping r p) = typingTimeoutRef p.
Proof.
  unfold startTyping.
  destruct (_ || _); [destruct (lastAgentMessage _), r|]; try reflexivity.
  destruct (bool_decide _); reflexivity.
Qed.

Lemma cleanup_ref p : typingTimeoutRef (cleanup p) = typingTimeoutRef p.
Proof. unfold cleanup. destruct (typingTimeoutRef p) eqn:E; [cbn; congruence | exact E]. Qed.

Lemma cleanup_tidy p : tidy p -> timers (cleanup p) = [].
Proof.
  intros [H | (tmr & H & Href)]; unfold cleanup.
  - destruct (typingTimeoutRef p); [cbn; now rewrite H | exact H].
  - rewrite Href. cbn. rewrite H. cbn. now rewrite Pos.eqb_refl.
Qed.

Lemma cleanup_no_timers p : timers p = [] -> timers (cleanup p) = [].
Proof. intros H. apply cleanup_tidy. now left. Qed.

(** What [animate] leaves behind on a panel without pending timers. *)
Lemma animate_scheduled tm p :
  timers p = [] ->
  timers (animate (Some tm) p) =
    [mkTimer (next_handle p) (fst (scheduled tm)) (snd (scheduled tm))]
  /\ typingTimeoutRef (animate (Some tm) p) = Some (next_handle p).
Proof.
  intros H. unfold animate, scheduled.
  destruct (_ <? _)%nat; cbn; rewrite H; cbn;
    try destruct (isPunctuation _); split; reflexivity.
Qed.

Lemma animate_tidy r p : timers p = [] -> tidy (animate r p).
Proof.
  intros H. destruct r as [tm|]; [|now left].
  destruct (animate_scheduled tm p H) as [Ht Hr].
  right. eexists. split; [exact Ht | exact Hr].
Qed.

Lemma commit_both_tidy p : tidy p -> tidy (commit_both p).
Proof.
  intros H. unfold commit_both. apply animate_tidy.
  rewrite startTyping_timers. apply cleanup_no_timers, cleanup_tidy, H.
Qed.

Lemma typing_changed_tidy p : tidy p -> tidy (typing_changed p).
Proof.
  intros H. unfold typing_changed.
  destruct (typingMessage p), (typingMessage (commit_both p));
    auto using commit_both_tidy.
Qed.

Lemma clearTimeout_tidy h p : tidy p -> tidy (clearTimeout h p).
Proof.
  intros [H | (tmr & H & Href)]; unfold tidy; cbn; rewrite H; cbn.
  - now left.
  - destruct (negb _); [right; eauto | now left].
Qed.

Lemma step_tidy e p : tidy p -> tidy (step e p).
Proof.
  intros H. destruct e as [ms sending | h]; unfold step.
  - assert (H1 : timers (startTyping (typingMessage p)
                           (cleanup (with_props ms sending p))) = []).
    { rewrite startTyping_timers. apply cleanup_tidy. exact H. }
    revert H1. generalize (startTyping (typingMessage p) (cleanup (with_props ms sending p))).
    intros p1 H1.
    assert (tidy p1) by now left.
    destruct (typingMessage p), (typingMessage p1); auto using typing_changed_tidy.
  - destruct (List.find _ _); [|exact H].
    apply typing_changed_tidy. now apply (clearTimeout_tidy h p) in H.
Qed.

Lemma steps_snoc es e p : steps (es ++ [e]) p = step e (steps es p).
Proof. unfold steps. now rewrite fold_left_app. Qed.

(** X20.  Whatever renders and timers the panel has gone through since
    it was mounted, at most one timer is pending, the one [typingTimeoutRef]
    holds, and the text shown for the message being typed, and the text
    any pending timer will show, is a prefix of the message's text. *)
Theorem panel_invariants es :
  tidy (steps es mounted) /\ well_formed (steps es mounted).
Proof.
  induction es as [|e es IH] using rev_ind.
  - split; [now left | apply mounted_well_formed].
  - rewrite steps_snoc. destruct IH as [H1 H2].
    split; [now apply step_tidy | now apply step_well_formed].
Qed.

(** ** Progress of an animation *)

Lemma tick_fires p tm :
  animating p tm ->
  tick p =
  typing_changed
    (setTypingMessage (snd (scheduled tm))
       (clearTimeout (default 1%positive (typingTimeoutRef p)) p))
  /\ timers (clearTimeout (default 1%positive (typingTimeoutRef p)) p) = [].
Proof.
  intros (Htm & h & Hh & Ht). unfold tick. rewrite Hh. cbn [default].
  unfold step. rewrite Ht. cbn. rewrite Pos.eqb_refl. cbn.
  split; [reflexivity|]. now rewrite Ht; cbn; rewrite Pos.eqb_refl.
Qed.

Lemma commit_both_animating p tm :
  typingMessage p = Some tm -> timers p = [] ->
  animating (commit_both p) tm.
Proof.
  intros Htm Ht. unfold commit_both. rewrite Htm.
  set (q := startTyping (Some tm) (cleanup (cleanup p))).
  assert (Hq : timers q = []).
  { subst q. rewrite startTyping_timers. now apply cleanup_no_timers, cleanup_no_timers. }
  assert (Hqt : typingMessage q = Some tm).
  { subst q. destruct (startTyping_guard tm (cleanup (cleanup p))) as (-> & _).
    now rewrite !cleanup_typing. }
  destruct (animate_scheduled tm q Hq) as [H1 H2].
  split; [now rewrite animate_typing|].
  exists (next_handle q). split; [exact H2 | exact H1].
Qed.

Lemma commit_both_keeps p tm :
  typingMessage p = Some tm -> typingMessage (commit_both p) = Some tm.
Proof.
  intros H. unfold commit_both. rewrite animate_typing, H.
  destruct (startTyping_guard tm (cleanup (cleanup p))) as (-> & _).
  now rewrite !cleanup_typing.
Qed.

Lemma typing_changed_animating p tm :
  typingMessage p = Some tm -> timers p = [] ->
  animating (typing_changed p) tm.
Proof.
  intros Htm Ht. unfold typing_changed. rewrite Htm.
  now apply commit_both_animating.
Qed.

(** While text of the message remains, the timer's firing leaves the
    panel animating the same message with more of its text. *)
Lemma tick_animating p tm tm' :
  animating p tm -> snd (scheduled tm) = Some tm' -> animating (tick p) tm'.
Proof.
  intros H Hs. destruct (tick_fires p tm H) as [-> Ht]. rewrite Hs.
  apply typing_changed_animating; [reflexivity | exact Ht].
Qed.

Lemma charsToAdd_bounds s : (1 <= charsToAdd s <= 5)%nat.
Proof.
  unfold charsToAdd, within.
  destruct (indexOf s 32) as [i|]; [destruct (Nat.ltb_spec i 5)|];
    try (simpl (default _ _); lia);
    (destruct (indexOf s 10) as [j|]; [destruct (Nat.ltb_spec j 3)|]);
    simpl (default _ _); lia.
Qed.

Lemma scheduled_more tm :
  (length (displayedText tm) < length (fullText tm))%nat ->
  exists k, (1 <= k <= 5)%nat
    /\ snd (scheduled tm) =
       Some (mkTyping (id tm) (fullText tm)
               (firstn (length (displayedText tm) + k) (fullText tm))).
Proof.
  intros H. unfold scheduled. apply Nat.ltb_lt in H. rewrite H.
  eexists. split; [apply charsToAdd_bounds|].
  destruct (isPunctuation _); reflexivity.
Qed.

Lemma scheduled_done tm :
  (length (fullText tm) <= length (displayedText tm))%nat ->
  scheduled tm = (200, None).
Proof.
  intros H. unfold scheduled. apply Nat.ltb_ge in H. now rewrite H.
Qed.

(** X21.  One firing of the timer of a running animation whose text is
    not yet shown in full: the panel goes on animating the same message, with
    between one and five more code units of its text shown, and waits 25
    or 80 ms for it. *)
Theorem animation_step p tm :
  animating p tm ->
  (length (displayedText tm) < length (fullText tm))%nat ->
  (fst (scheduled tm) = 25 \/ fst (scheduled tm) = 80)
  /\ exists k, (1 <= k <= 5)%nat
     /\ animating (tick p)
          (mkTyping (id tm) (fullText tm)
             (firstn (length (displayedText tm) + k) (fullText tm))).
Proof.
  intros H Hlt. split.
  - unfold scheduled. apply Nat.ltb_lt in Hlt. rewrite Hlt.
    destruct (isPunctuation _); auto.
  - destruct (scheduled_more tm Hlt) as (k & Hk & Hs).
    exists k. split; [exact Hk|]. now apply (tick_animating p tm).
Qed.

(** ** A message the panel is through with *)

Lemma Forall_filter_keep {A} (P : A -> Prop) f (l : list A) :
  Forall P l -> Forall P (List.filter f l).
Proof. induction 1; simpl; [constructor | destruct (f x); auto]. Qed.

Lemma cleanup_done i p : done_with i p -> done_with i (cleanup p).
Proof.
  intros (H1 & H2 & H3). unfold cleanup. destruct (typingTimeoutRef p); [|now (split; [|split])].
  split; [|split]; [exact H1 | exact H2 |]. cbn.
  now apply Forall_filter_keep.
Qed.

Lemma startTyping_done i r p : done_with i p -> done_with i (startTyping r p).
Proof.
  intros (H1 & H2 & H3). unfold startTyping.
  destruct (_ || _); [destruct (lastAgentMessage _) as [last|], r|]; try (now (split; [|split])).
  destruct (bool_decide _) eqn:E; [now (split; [|split])|].
  apply bool_decide_eq_false in E.
  split; [|split]; cbn; [set_solver | | exact H3].
  intros tm [= <-]. cbn. intros Heq. apply E. now rewrite Heq.
Qed.

Lemma animate_done i r p :
  done_with i p -> (forall tm, r = Some tm -> id tm <> i) -> done_with i (animate r p).
Proof.
  intros (H1 & H2 & H3) Hr. unfold animate. destruct r as [tm|]; [|now (split; [|split])].
  specialize (Hr tm eq_refl).
  destruct (_ <? _)%nat; (split; [|split]; [exact H1 | exact H2 |]); cbn;
    apply Forall_app; (split; [exact H3|]); repeat constructor; cbn;
    intros tm' [= <-]; exact Hr.
Qed.

Lemma commit_both_done i p : done_with i p -> done_with i (commit_both p).
Proof.
  intros H. unfold commit_both.
  apply animate_done; [now apply startTyping_done, cleanup_done, cleanup_done|].
  now destruct H as (_ & H & _).
Qed.

Lemma typing_changed_done i p : done_with i p -> done_with i (typing_changed p).
Proof.
  intros H. unfold typing_changed.
  destruct (typingMessage p), (typingMessage (commit_both p));
    auto using commit_both_done.
Qed.

Lemma step_done i e p : done_with i p -> done_with i (step e p).
Proof.
  intros H. destruct e as [ms sending | h]; unfold step.
  - assert (H1 : done_with i (startTyping (typingMessage p)
                                (cleanup (with_props ms sending p)))).
    { apply startTyping_done, cleanup_done. exact H. }
    revert H1. generalize (startTyping (typingMessage p) (cleanup (with_props ms sending p))).
    intros p1 H1.
    destruct (typingMessage p), (typingMessage p1); auto using typing_changed_done.
  - destruct (List.find _ _) as [t|] eqn:E; [|exact H].
    apply typing_changed_done. destruct H as (H1 & H2 & H3).
    apply find_some in E. destruct E as [Hin _].
    split; [|split]; cbn; [exact H1 | |].
    + exact (proj1 (List.Forall_forall _ _) H3 t Hin).
    + now apply Forall_filter_keep.
Qed.

(** X23.  A message the panel is through with is never typed again: whatever
    renders and timers follow, it stays processed, no animation and no
    timer is about it, and the panel shows its text in full. *)
Theorem finished_message_stays_finished p es m :
  done_with (Message.id m) p ->
  done_with (Message.id m) (steps es p)
  /\ displayText (steps es p) m = Message.text m.
Proof.
  intros H.
  assert (Hd : done_with (Message.id m) (steps es p)).
  { induction es as [|e es IH] using rev_ind; [exact H|].
    rewrite steps_snoc. now apply step_done. }
  split; [exact Hd|]. apply displayText_other. now destruct Hd as (_ & Hd & _).
Qed.

Lemma step_processed e p :
  processedMessageIdsRef p ⊆ processedMessageIdsRef (step e p).
Proof.
  assert (Hst : forall r q, processedMessageIdsRef q ⊆ processedMessageIdsRef (startTyping r q)).
  { intros r q. unfold startTyping.
    destruct (_ || _); [destruct (lastAgentMessage _), r|]; try reflexivity.
    destruct (bool_decide _); [reflexivity | cbn; set_solver]. }
  assert (Hcl : forall q, processedMessageIdsRef (cleanup q) = processedMessageIdsRef q).
  { intros q. unfold cleanup. now destruct (typingTimeoutRef q). }
  assert (Han : forall r q, processedMessageIdsRef (animate r q) = processedMessageIdsRef q).
  { intros r q. unfold animate. destruct r; [destruct (_ <? _)%nat|]; reflexivity. }
  assert (Hcb : forall q, processedMessageIdsRef q ⊆ processedMessageIdsRef (commit_both q)).
  { intros q. unfold commit_both. rewrite Han.
    etransitivity; [|apply Hst]. now rewrite !Hcl. }
  assert (Htc : forall q, processedMessageIdsRef q ⊆ processedMessageIdsRef (typing_changed q)).
  { intros q. unfold typing_changed.
    destruct (typingMessage q), (typingMessage (commit_both q)); try apply Hcb.
    etransitivity; [apply Hcb | apply Hcb]. }
  destruct e as [ms sending | h]; unfold step.
  - assert (H1 : processedMessageIdsRef p ⊆
                 processedMessageIdsRef (startTyping (typingMessage p)
                                           (cleanup (with_props ms sending p)))).
    { etransitivity; [|apply Hst]. now rewrite Hcl. }
    revert H1. generalize (startTyping (typingMessage p) (cleanup (with_props ms sending p))).
    intros p1 H1.
    destruct (typingMessage p), (typingMessage p1); try exact H1.
    etransitivity; [exact H1 | apply Htc].
  - destruct (List.find _ _); [|reflexivity].
    etransitivity; [|apply Htc]. reflexivity.
Qed.

Lemma tick_processed p :
  processedMessageIdsRef p ⊆ processedMessageIdsRef (tick p).
Proof.
  unfold tick. destruct (typingTimeoutRef p); [apply step_processed | reflexivity].
Qed.

(** X22.  A running animation left to its timers shows the whole text after at
    most as many firings as code units were missing, and the firing after
    that, 200 ms later, ends it: the panel is through with the message. *)
Theorem animation_completes p tm :
  animating p tm ->
  reveals_prefix (Some tm) ->
  id tm ∈ processedMessageIdsRef p ->
  exists n,
    (n <= length (fullText tm) - length (displayedText tm))%nat
    /\ animating (Nat.iter n tick p) (mkTyping (id tm) (fullText tm) (fullText tm))
    /\ done_with (id tm) (tick (Nat.iter n tick p)).
Proof.
  remember (length (fullText tm) - length (displayedText tm))%nat as d eqn:Hd.
  revert p tm Hd. induction d as [d IH] using lt_wf_ind. intros p tm Hd H Hpre Hin.
  destruct (Nat.ltb_spec (length (displayedText tm)) (length (fullText tm))) as [Hlt|Hge].
  - destruct (scheduled_more tm Hlt) as (k & Hk & Hs).
    pose proof (tick_animating p tm _ H Hs) as Hnext.
    set (tm' := mkTyping (id tm) (fullText tm)
                  (firstn (length (displayedText tm) + k) (fullText tm))) in *.
    assert (Hlen : length (displayedText tm') =
                   Nat.min (length (displayedText tm) + k) (length (fullText tm))).
    { subst tm'. cbn. apply length_firstn. }
    destruct (IH (length (fullText tm') - length (displayedText tm'))%nat
                ltac:(subst tm'; cbn in *; lia) (tick p) tm' eq_refl Hnext
                ltac:(subst tm'; cbn; eauto)
                ltac:(subst tm'; cbn; now apply tick_processed))
      as (n & Hn & Ha & Hend).
    exists (S n). rewrite Nat.iter_succ_r.
    split; [subst tm'; cbn in *; lia|]. split; [exact Ha | exact Hend].
  - exists 0%nat. change (Nat.iter 0 tick p) with p.
    assert (Hfull : tm = mkTyping (id tm) (fullText tm) (fullText tm)).
    { destruct Hpre as [n0 Hn0]. destruct tm as [i full shown]. cbn in *. f_equal.
      subst shown. rewrite length_firstn in Hge.
      apply firstn_all2. lia. }
    split; [lia|]. split; [now rewrite <- Hfull|].
    destruct (tick_fires p tm H) as [-> Ht].
    rewrite scheduled_done by exact Hge. cbn [snd].
    apply typing_changed_done.
    split; [|split]; cbn; [exact Hin | discriminate |].
    cbn in Ht. rewrite Ht. constructor.
Qed.

(** ** An arrival during an animation *)

(** X24.  A render of the layout while a message is being typed stops
    the animation where it is: the pending timer is cleared and none is set
    again, so whatever renders and timers follow, the same text stays
    shown as being typed. *)
Theorem arrival_stalls_animation p tm ms sending es :
  tidy p ->
  typingMessage p = Some tm ->
  typingMessage (steps es (step (Props ms sending) p)) = Some tm
  /\ timers (steps es (step (Props ms sending) p)) = [].
Proof.
  intros Ht Htm.
  assert (Hstep : forall e q,
            typingMessage q = Some tm /\ timers q = [] ->
            typingMessage (step e q) = Some tm /\ timers (step e q) = []).
  { intros e q [H1 H2]. destruct e as [ms' sending' | h]; unfold step.
    - rewrite H1.
      destruct (startTyping_guard tm (cleanup (with_props ms' sending' q))) as (-> & -> & _).
      rewrite cleanup_typing. cbn [typingMessage with_props]. rewrite H1.
      split; [reflexivity|]. now apply cleanup_no_timers.
    - rewrite H2. cbn. now split. }
  induction es as [|e es IH] using rev_ind.
  - unfold steps, fold_left, step. rewrite Htm.
    destruct (startTyping_guard tm (cleanup (with_props ms sending p))) as (-> & -> & _).
    rewrite cleanup_typing. cbn [typingMessage with_props]. rewrite Htm.
    split; [reflexivity|]. apply cleanup_tidy. exact Ht.
  - rewrite steps_snoc. now apply Hstep.
Qed.

End TypingProgress.

(** ** The theorems at the scenarios *)

(** Conversation 1 was selected and is deselected for 2 before its load is
    answered; with the answer for 1 arriving first the panel shows the
    messages of 2. *)
Lemma late_answer_last_write_wins_witness :
  selectedConversationId Scenario.nothing_selected = None
  /\ 1 <> 2
  /\ all_of 2 Scenario.of_conversation_2
  /\ visible_messages
       (Loop.ui
          (Loop.steps true
             ([Loop.Select (Some 1); Loop.Select (Some 2)] ++
              [Loop.Arrive 0 (Loop.Messages
                                (Resolved (mkResponse true 200
                                             (Some Scenario.of_conversation_1))));
               Loop.Frame;
               Loop.Arrive 0 (Loop.Messages
                                (Resolved (mkResponse true 200
                                             (Some Scenario.of_conversation_2))));
               Loop.Frame])
             (Loop.idle Scenario.nothing_selected)))
     = Scenario.of_conversation_2.
Proof.
  assert (H12 : 1 <> 2) by lia.
  assert (Hall : all_of 2 Scenario.of_conversation_2).
  { unfold all_of, Scenario.of_conversation_2. repeat constructor. }
  split; [reflexivity|]. split; [exact H12|]. split; [exact Hall|].
  exact (proj2 (proj2 (proj1
           (late_answer_last_write_wins true Scenario.nothing_selected 1 2
              Scenario.of_conversation_1 Scenario.of_conversation_2
              eq_refl H12 Hall)))).
Defined.

(** [loadMessages(7)] against a backend that answers 500 every time. *)
Lemma loadMessages_three_attempts_witness :
  frames (Scenario.world Scenario.chatting) = []
  /\ exists w',
       run Scenario.down (loadMessages true 7) (Scenario.world Scenario.chatting)
       = (Returned tt, w')
       /\ messages (ui w') = []
       /\ requests w' = [GET_messages 7; GET_messages 7; GET_messages 7]
       /\ sleeps w' = [300; 600].
Proof.
  split; [reflexivity|].
  destruct (loadMessages_three_attempts true Scenario.down 7
              (Scenario.world Scenario.chatting) eq_refl)
    as (w' & k & Hrun & _ & Hreq & Hfail).
  destruct (Hfail eq_refl eq_refl eq_refl) as (Hk & Hm & Hs & _).
  exists w'. rewrite Hk in Hreq. auto.
Defined.

(** The scenario of the two conversations, the selected one deleted. *)
Lemma deleteConversation_success_witness :
  on_delete Scenario.healthy 0 1 = Resolved (mkResponse true 200 (Some tt))
  /\ (let w' := snd (exec Scenario.healthy
                       (deleteConversation Scenario.two_conversations 1)
                       (Scenario.world Scenario.two_conversations)) in
      selectedConversationId (ui w') = Some 2 /\ messages (ui w') = []).
Proof.
  split; [reflexivity|].
  destruct (deleteConversation_success true Scenario.healthy 1
              (Scenario.world Scenario.two_conversations)
              (mkResponse true 200 (Some tt)) eq_refl eq_refl)
    as (_ & _ & _ & Hsel & _).
  destruct (Hsel eq_refl (Scenario.conversation 2 "Conversation 2") [] eq_refl)
    as (H1 & H2 & _).
  split; [exact H1 | exact H2].
Defined.

(** A send of three spaces. *)
Lemma sendMessage_blank_is_noop_witness :
  trim (js "   ") = []
  /\ exec Scenario.down (sendMessage true Scenario.now 5 (js "   ") None)
          (Scenario.world Scenario.chatting)
     = (Returned tt, Scenario.world Scenario.chatting).
Proof.
  split; [reflexivity|].
  apply sendMessage_blank_is_noop; [reflexivity | left; reflexivity].
Defined.

(** Two loads of conversation 2. *)
Lemma loadMessages_idempotent_witness :
  (forall n, on_messages Scenario.healthy n 2
             = Scenario.http 200 (Some Scenario.of_conversation_2))
  /\ (let once := snd (run Scenario.healthy (loadMessages true 2)
                         (Scenario.world Scenario.chatting)) in
      let twice := snd (run Scenario.healthy (loadMessages true 2) once) in
      messages (ui twice) = messages (ui once)).
Proof.
  split; [intros n; reflexivity|].
  apply (loadMessages_idempotent true Scenario.healthy 2
           (Scenario.http 200 (Some Scenario.of_conversation_2))).
  - intros n. reflexivity.
  - reflexivity.
Defined.

(** Message 104 arrives in the middle of the animation of 102. *)
Lemma arrival_keeps_running_animation_witness :
  ChatPanel.typingMessage Scenario.typing_102
  = Some (ChatPanel.mkTyping 102 (js "Hi, there friend.") (js "Hi, "))
  /\ ChatPanel.typingMessage (ChatPanel.step Scenario.arrival_104 Scenario.typing_102)
     = Some (ChatPanel.mkTyping 102 (js "Hi, there friend.") (js "Hi, ")).
Proof.
  split; [reflexivity|].
  exact (proj1 (arrival_keeps_running_animation Scenario.typing_102 _ false _ eq_refl)).
Defined.

(** A third conversation, created without a title. *)
Lemma createConversation_default_title_witness :
  frames (Scenario.world Scenario.two_conversations) = []
  /\ (let result := run Scenario.healthy
                      (createConversation true Scenario.two_conversations None)
                      (Scenario.world Scenario.two_conversations) in
      fst result
      = Returned (Some (Conversation.mk 3 1 (js "Conversation 3") (js "thread")
                          Scenario.now))
      /\ selectedConversationId (ui (snd result)) = Some 3).
Proof.
  split; [reflexivity|].
  destruct (createConversation_default_title true Scenario.healthy
              (Scenario.world Scenario.two_conversations) None
              (or_introl eq_refl) eq_refl)
    as (_ & Hcustomer).
  destruct (Hcustomer 1 eq_refl ltac:(lia)) as (_ & Hcreated & _).
  destruct (Hcreated (Conversation.mk 3 1 (js "Conversation 3") (js "thread")
                        Scenario.now) eq_refl)
    as (H1 & _ & H2 & _).
  split; [exact H1 | exact H2].
Defined.

Lemma loadMessages_touches_messages_only_witness :
  frames (Scenario.world Scenario.two_conversations) = []
  /\ (let w' := snd (run Scenario.healthy (loadMessages true 2)
                       (Scenario.world Scenario.two_conversations)) in
      conversations (ui w') = conversations Scenario.two_conversations
      /\ selectedConversationId (ui w') = Some 1
      /\ isLoadingMessages (ui w') = false).
Proof.
  split; [reflexivity|].
  destruct (loadMessages_touches_messages_only true Scenario.healthy 2
              (Scenario.world Scenario.two_conversations) eq_refl)
    as ((_ & _ & H1 & H2 & _) & H3 & _).
  split; [exact H1 | split; [exact H2 | exact H3]].
Defined.

Lemma loadMessages_recovers_witness :
  payload (on_messages Scenario.flaky 0 2) = None
  /\ payload (on_messages Scenario.flaky 1 2) = Some Scenario.of_conversation_2
  /\ exists w',
       run Scenario.flaky (loadMessages true 2) (Scenario.world Scenario.two_conversations)
       = (Returned tt, w')
       /\ messages (ui w') = Scenario.of_conversation_2
       /\ requests w' = [GET_messages 2; GET_messages 2]
       /\ sleeps w' = [300]
       /\ console w' = [].
Proof.
  split; [reflexivity|]. split; [reflexivity|].
  apply (loadMessages_recovers true Scenario.flaky 2
           (Scenario.world Scenario.two_conversations) Scenario.of_conversation_2 1).
  - reflexivity.
  - lia.
  - intros [|i] Hi; [reflexivity | lia].
  - reflexivity.
Defined.

Lemma sendMessage_always_settles_witness :
  frames (Scenario.world Scenario.chatting) = []
  /\ (let result := run Scenario.down (sendMessage true Scenario.now 5 (js "hello") None)
                      (Scenario.world Scenario.chatting) in
      fst result = Returned tt
      /\ conversations (ui (snd result)) = conversations Scenario.chatting
      /\ isSending (ui (snd result)) = false).
Proof.
  split; [reflexivity|].
  destruct (sendMessage_always_settles true Scenario.down Scenario.now 5 (js "hello") None
              (Scenario.world Scenario.chatting) eq_refl)
    as (H1 & _ & _ & H2 & _ & H3).
  split; [exact H1 | split; [exact H2 | exact (H3 eq_refl)]].
Defined.

Lemma sendMessage_posts_once_witness :
  falsy (trim (js "hello")) && no_files None = false
  /\ exists k,
       requests (snd (run Scenario.silent (sendMessage true Scenario.now 5 (js "hello") None)
                        (Scenario.world Scenario.chatting)))
       = POST_chat_json 5 (js "hello") :: repeat (GET_messages 5) k
       /\ (k <= 3)%nat.
Proof.
  split; [reflexivity|].
  destruct (sendMessage_posts_once true Scenario.silent Scenario.now 5 (js "hello") None
              (Scenario.world Scenario.chatting) eq_refl)
    as (k & H1 & H2 & _).
  exists k. split; [exact H1 | exact H2].
Defined.

Lemma sendMessage_reloads_witness :
  payload (chat_answer Scenario.silent (Scenario.world Scenario.chatting) 5 (js "hello") None)
  = Some (mkSendReply None)
  /\ messages (ui (snd (run Scenario.silent (sendMessage true Scenario.now 5 (js "hello") None)
                          (Scenario.world Scenario.chatting))))
     = Scenario.of_conversation_1.
Proof.
  split; [reflexivity|].
  exact (proj1 (sendMessage_reloads true Scenario.silent Scenario.now 5 (js "hello") None
                  (Scenario.world Scenario.chatting) (mkSendReply None)
                  (Scenario.http 200 (Some Scenario.of_conversation_1))
                  eq_refl eq_refl eq_refl (or_introl eq_refl) (fun _ => eq_refl))).
Defined.

Lemma deleteConversation_failure_changes_nothing_witness :
  failed (on_delete Scenario.down 0 1) = true
  /\ (let result := exec Scenario.down (deleteConversation Scenario.two_conversations 1)
                      (Scenario.world Scenario.two_conversations) in
      ui (snd result) = Scenario.two_conversations
      /\ requests (snd result) = [DELETE_conversation 1]).
Proof.
  split; [reflexivity|].
  destruct (deleteConversation_failure_changes_nothing Scenario.down
              Scenario.two_conversations 1 (Scenario.world Scenario.two_conversations) eq_refl)
    as (_ & H1 & H2 & _).
  split; [exact H1 | exact H2].
Defined.

Lemma deleteConversation_of_another_witness :
  selectedConversationId Scenario.two_conversations <> Some 2
  /\ (let w' := snd (exec Scenario.healthy (deleteConversation Scenario.two_conversations 2)
                       (Scenario.world Scenario.two_conversations)) in
      selectedConversationId (ui w') = Some 1
      /\ messages (ui w') = [Scenario.message 10 1 agent "welcome"]
      /\ conversations (ui w') = [Scenario.conversation 1 "Conversation 1"]).
Proof.
  assert (H : selectedConversationId Scenario.two_conversations <> Some 2) by discriminate.
  split; [exact H|].
  destruct (deleteConversation_of_another Scenario.healthy 2
              (Scenario.world Scenario.two_conversations) _ eq_refl eq_refl H)
    as (H1 & H2 & _ & H3 & _).
  split; [exact H1 | split; [exact H2 | exact H3]].
Defined.

Lemma deleteConversation_keeps_selection_listed_witness :
  selection_in_list Scenario.two_conversations
  /\ selection_in_list
       (ui (snd (exec Scenario.healthy (deleteConversation Scenario.two_conversations 1)
                   (Scenario.world Scenario.two_conversations)))).
Proof.
  assert (H : selection_in_list Scenario.two_conversations) by (left; reflexivity).
  split; [exact H|].
  exact (deleteConversation_keeps_selection_listed Scenario.healthy 1
           (Scenario.world Scenario.two_conversations) H).
Defined.

Lemma createConversation_keeps_selection_listed_witness :
  selection_in_list Scenario.two_conversations
  /\ selection_in_list
       (ui (snd (run Scenario.healthy
                   (createConversation true Scenario.two_conversations (Some (js "Billing")))
                   (Scenario.world Scenario.two_conversations)))).
Proof.
  assert (H : selection_in_list Scenario.two_conversations) by (left; reflexivity).
  split; [exact H|].
  exact (createConversation_keeps_selection_listed true Scenario.healthy
           (Scenario.world Scenario.two_conversations) (Some (js "Billing")) eq_refl H).
Defined.

Lemma handleAddConversation_posts_clean_title_witness :
  exists more,
    requests (snd (exec Scenario.healthy
                     (Dashboard.handleAddConversation true Scenario.two_conversations
                        (Some (js "   ")))
                     (Scenario.world Scenario.two_conversations)))
    = POST_conversations 1 (js "Conversation 3") :: more.
Proof.
  destruct (handleAddConversation_posts_clean_title true Scenario.healthy
              (Scenario.world Scenario.two_conversations) (Some (js "   ")))
    as [_ H].
  exact (proj1 (H (js "   ") 1 eq_refl eq_refl)).
Defined.

Lemma handleSubmit_sends_text_witness :
  exists text,
    ChatPanel.handleSubmit true Scenario.now (Some (Scenario.conversation 5 "Conversation 1"))
      Scenario.draft
    = (ChatPanel.mkComposer [] [], sendMessage true Scenario.now 5 text None)
    /\ trim text <> [].
Proof.
  destruct (handleSubmit_sends_text true Scenario.now
              (Scenario.conversation 5 "Conversation 1") Scenario.draft eq_refl)
    as (text & H1 & H2 & _).
  exists text. split; [exact H1 | exact H2].
Defined.

Lemma handleSubmit_nothing_to_send_witness :
  blank (js "  ")
  /\ (let '(form', call) :=
        ChatPanel.handleSubmit true Scenario.now
          (Some (Scenario.conversation 5 "Conversation 1"))
          (ChatPanel.mkComposer (js "  ") []) in
      form' = ChatPanel.mkComposer (js "  ") []
      /\ exec Scenario.healthy call (Scenario.world Scenario.chatting)
         = (Returned tt, Scenario.world Scenario.chatting)).
Proof.
  assert (H : blank (js "  ")) by (repeat constructor).
  split; [exact H|].
  exact (handleSubmit_nothing_to_send true Scenario.healthy Scenario.now
           (Some (Scenario.conversation 5 "Conversation 1"))
           (ChatPanel.mkComposer (js "  ") []) (Scenario.world Scenario.chatting)
           (or_intror (conj H eq_refl))).
Defined.

Lemma handleSubmit_confirmed_witness :
  let '(form', call) :=
    ChatPanel.handleSubmit true Scenario.now
      (Some (Scenario.conversation 5 "Conversation 1")) Scenario.draft in
  form' = ChatPanel.mkComposer [] []
  /\ List.map Message.id
       (messages (ui (snd (run Scenario.healthy call (Scenario.world Scenario.chatting)))))
     = [100; 101; 102].
Proof.
  assert (Hnone : Forall (fun x => ~ is_placeholder
                            (ChatPanel.messageText (trim (ChatPanel.input Scenario.draft))
                               (ChatPanel.uploaded Scenario.draft)) x)
                    (messages (ui (Scenario.world Scenario.chatting)))).
  { repeat constructor. intros [H _]. discriminate H. }
  pose proof (handleSubmit_confirmed true Scenario.healthy Scenario.now
                (Scenario.conversation 5 "Conversation 1") Scenario.draft
                (Scenario.world Scenario.chatting)
                (Scenario.message 101 5 admin "hello")
                [Scenario.message 102 5 agent "hi there"]
                eq_refl eq_refl Hnone eq_refl) as H.
  destruct (ChatPanel.handleSubmit true Scenario.now
              (Some (Scenario.conversation 5 "Conversation 1")) Scenario.draft)
    as [form' call].
  destruct H as [H1 H2]. split; [exact H1|]. rewrite H2. reflexivity.
Defined.


Lemma valid_type_has_label_witness :
  ChatPanel.isValidType Scenario.resume_pdf = true
  /\ ChatPanel.getFileTypeLabel Scenario.resume_pdf <> js "FILE".
Proof.
  split; [reflexivity|].
  exact (valid_type_has_label Scenario.resume_pdf eq_refl).
Defined.

Lemma remove_selected_file_witness :
  ChatPanel.rejection Scenario.resume_pdf = None
  /\ ChatPanel.handleRemoveFile (js "2-0.7")
       (ChatPanel.uploadedFiles
          (ChatPanel.handleFileSelect (fun _ => js "2-0.7") (Some [Scenario.resume_pdf])
             (ChatPanel.uploaded Scenario.draft)))
     = ChatPanel.uploaded Scenario.draft.
Proof.
  split; [reflexivity|].
  apply (remove_selected_file (fun _ => js "2-0.7") Scenario.resume_pdf
           (ChatPanel.uploaded Scenario.draft) eq_refl).
  repeat constructor. discriminate.
Defined.

Lemma panel_props_agree_witness :
  panel_conversation Scenario.two_conversations
  = Some (Scenario.conversation 1 "Conversation 1")
  /\ Forall (fun m => Message.conversation_id m = 1)
       (visible_messages Scenario.two_conversations).
Proof.
  split; [reflexivity|].
  exact (proj2 (proj2 (panel_props_agree Scenario.two_conversations
                         (Scenario.conversation 1 "Conversation 1") eq_refl))).
Defined.

Lemma animation_step_witness :
  ChatPanel.animating Scenario.typing_started
    (ChatPanel.mkTyping 102 (js "Hi, there friend.") [])
  /\ exists k, (1 <= k <= 5)%nat
       /\ ChatPanel.animating (ChatPanel.tick Scenario.typing_started)
            (ChatPanel.mkTyping 102 (js "Hi, there friend.")
               (firstn k (js "Hi, there friend."))).
Proof.
  assert (H : ChatPanel.animating Scenario.typing_started
                (ChatPanel.mkTyping 102 (js "Hi, there friend.") [])).
  { split; [reflexivity|]. exists 1%positive. split; reflexivity. }
  split; [exact H|].
  exact (proj2 (animation_step Scenario.typing_started _ H ltac:(vm_compute; lia))).
Defined.

Lemma animation_completes_witness :
  102 ∈ ChatPanel.processedMessageIdsRef Scenario.typing_started
  /\ exists n, (n <= 17)%nat
       /\ ChatPanel.animating (Nat.iter n ChatPanel.tick Scenario.typing_started)
            (ChatPanel.mkTyping 102 (js "Hi, there friend.") (js "Hi, there friend."))
       /\ ChatPanel.done_with 102
            (ChatPanel.tick (Nat.iter n ChatPanel.tick Scenario.typing_started)).
Proof.
  assert (Hin : 102 ∈ ChatPanel.processedMessageIdsRef Scenario.typing_started).
  { refine (bool_decide_unpack (102 ∈ ChatPanel.processedMessageIdsRef Scenario.typing_started) _).
    vm_compute. exact I. }
  assert (H : ChatPanel.animating Scenario.typing_started
                (ChatPanel.mkTyping 102 (js "Hi, there friend.") [])).
  { split; [reflexivity|]. exists 1%positive. split; reflexivity. }
  split; [exact Hin|].
  exact (animation_completes Scenario.typing_started _ H
           (ex_intro _ 0%nat eq_refl) Hin).
Defined.

Lemma finished_message_stays_finished_witness :
  ChatPanel.done_with 102 Scenario.typed_102
  /\ ChatPanel.displayText
       (ChatPanel.steps [Scenario.arrival_104; ChatPanel.Fired 12] Scenario.typed_102)
       (Scenario.message 102 5 agent "Hi, there friend.")
     = js "Hi, there friend.".
Proof.
  assert (H : ChatPanel.done_with 102 Scenario.typed_102).
  { split;
      [refine (bool_decide_unpack (102 ∈ ChatPanel.processedMessageIdsRef Scenario.typed_102) _);
       vm_compute; exact I|].
    split; [intros tm Htm; vm_compute in Htm; discriminate Htm|].
    vm_compute. constructor. }
  split; [exact H|].
  exact (proj2 (finished_message_stays_finished Scenario.typed_102
                  [Scenario.arrival_104; ChatPanel.Fired 12]
                  (Scenario.message 102 5 agent "Hi, there friend.") H)).
Defined.

Lemma arrival_stalls_animation_witness :
  ChatPanel.tidy Scenario.typing_102
  /\ ChatPanel.typingMessage Scenario.typing_102
     = Some (ChatPanel.mkTyping 102 (js "Hi, there friend.") (js "Hi, "))
  /\ ChatPanel.typingMessage
       (ChatPanel.steps [ChatPanel.Fired 2; ChatPanel.Fired 3]
          (ChatPanel.step Scenario.arrival_104 Scenario.typing_102))
     = Some (ChatPanel.mkTyping 102 (js "Hi, there friend.") (js "Hi, ")).
Proof.
  assert (H : ChatPanel.tidy Scenario.typing_102).
  { right.
    exists (ChatPanel.mkTimer 2 25
              (Some (ChatPanel.mkTyping 102 (js "Hi, there friend.") (js "Hi, t")))).
    split; vm_compute; reflexivity. }
  split; [exact H|]. split; [vm_compute; reflexivity|].
  exact (proj1 (arrival_stalls_animation Scenario.typing_102 _ _ false
                  [ChatPanel.Fired 2; ChatPanel.Fired 3] H
                  ltac:(vm_compute; reflexivity))).
Defined.
